(** * The [clif] documentation domain: signatures and cross-reference index

    A shallow embedding of [docs/clif_domain.py], under Python 3.  A string
    is a [str] whose code points are below 256: a character ([ascii]) is its
    code point, so the length of a string is its number of code points.
    Strings with higher code points are outside the model.  The objects
    index [env.domaindata['clif']['objects']] is a finite map from object
    names to pairs (defining document, object type). *)

From Stdlib Require Import String Ascii List Bool Arith Lia.
From stdpp Require Import gmap strings list fin_maps sorting pretty.

Local Open Scope string_scope.
Local Open Scope list_scope.

(** ** Characters and strings, as Python sees them *)

Module Py.

(** [str.isspace] on a character, which is also the class [\s] of a [str]
    pattern: U+0009 to U+000D, U+001C to U+0020, U+0085 and U+00A0. *)
Definition isspace (c : ascii) : bool :=
  let n := nat_of_ascii c in
  (Nat.leb 9 n && Nat.leb n 13) || (Nat.leb 28 n && Nat.leb n 32)
  || Nat.eqb n 133 || Nat.eqb n 160.

Definition isdigit (c : ascii) : bool :=
  let n := nat_of_ascii c in Nat.leb 48 n && Nat.leb n 57.

Definition isupper (c : ascii) : bool :=
  let n := nat_of_ascii c in Nat.leb 65 n && Nat.leb n 90.

Definition islower (c : ascii) : bool :=
  let n := nat_of_ascii c in Nat.leb 97 n && Nat.leb n 122.

(** The ASCII letters and digits: after a backslash they make an escape
    with a meaning of its own. *)
Definition isalnum (c : ascii) : bool :=
  isdigit c || isupper c || islower c.

(** The class [\w] of a [str] pattern: the alphanumeric characters
    ([str.isalnum]) and the underscore. *)
Definition isword (c : ascii) : bool :=
  let n := nat_of_ascii c in
  isalnum c || Nat.eqb n 95
  || Nat.eqb n 170 || (Nat.leb 178 n && Nat.leb n 179) || Nat.eqb n 181
  || (Nat.leb 185 n && Nat.leb n 186) || (Nat.leb 188 n && Nat.leb n 190)
  || (Nat.leb 192 n && Nat.leb n 214) || (Nat.leb 216 n && Nat.leb n 246)
  || Nat.leb 248 n.

(** [sep.join(l)] *)
Fixpoint join (sep : string) (l : list string) : string :=
  match l with
  | [] => ""
  | [x] => x
  | x :: l' => x +:+ sep +:+ join sep l'
  end.

(** [s.lstrip()] *)
Fixpoint lstrip (s : string) : string :=
  match s with
  | String c s' => if isspace c then lstrip s' else s
  | EmptyString => s
  end.

(** The longest prefix of [s] without whitespace, and what follows it. *)
Fixpoint span_word (s : string) : string * string :=
  match s with
  | String c s' =>
      if isspace c then ("", s)
      else let '(w, rest) := span_word s' in (String c w, rest)
  | EmptyString => ("", "")
  end.

(** [s.split(None, maxcount)]: whitespace-delimited words, at most
    [maxcount] of them cut off; what is left after them, without its leading
    whitespace, is the last element when it is not empty. *)
Fixpoint split_whitespace (maxcount : nat) (s : string) : list string :=
  let t := lstrip s in
  match maxcount with
  | O => if String.eqb t "" then [] else [t]
  | S m =>
      if String.eqb t "" then []
      else let '(w, rest) := span_word t in w :: split_whitespace m rest
  end.

(** [s.rstrip(chars)], for the characters [drop] holds of. *)
Fixpoint rstrip_with (drop : ascii -> bool) (s : string) : string :=
  match s with
  | EmptyString => ""
  | String c s' =>
      match rstrip_with drop s' with
      | EmptyString => if drop c then "" else String c ""
      | r => String c r
      end
  end.

(** [s.rstrip()] *)
Definition rstrip (s : string) : string := rstrip_with isspace s.

(** [s.strip()] *)
Definition strip (s : string) : string := rstrip (lstrip s).

(** Exceptions the modelled code can raise. *)
Inductive outcome (A : Type) : Type :=
  | Returns (a : A)
  | IndexError.
Arguments Returns {A} a.
Arguments IndexError {A}.

#[global] Instance outcome_ret : MRet outcome := fun A a => Returns a.

#[global] Instance outcome_bind : MBind outcome := fun A B f m =>
  match m with
  | Returns a => f a
  | IndexError => IndexError
  end.

(** [l[i]] *)
Definition index {A} (l : list A) (i : nat) : outcome A :=
  match l !! i with
  | Some a => Returns a
  | None => IndexError
  end.

End Py.

(** ** The fragment of [re] the module uses

    A pattern is a sequence of single-character classes, each taken once or
    under a greedy [*] or [+]; the whole pattern may be one capturing group.
    The patterns of the module, and every pattern [parse_type] returns, are
    of this form. *)

Module Re.

Inductive charset : Type :=
  | CLit (c : ascii)
  | CRange (lo hi : ascii)
  | CSpace
  | CWord.

Inductive quant : Type := One | Star | Plus.

Record pattern : Type := {
  capture : bool;                    (* the whole pattern is group 1 *)
  items : list (charset * quant)
}.

Definition in_class (cs : charset) (c : ascii) : bool :=
  match cs with
  | CLit d => Ascii.eqb c d
  | CRange lo hi =>
      Nat.leb (nat_of_ascii lo) (nat_of_ascii c)
      && Nat.leb (nat_of_ascii c) (nat_of_ascii hi)
  | CSpace => Py.isspace c
  | CWord => Py.isword c
  end.

(** Greedy repetition with backtracking: the longest run of [cs] first. *)
Fixpoint match_star (cs : charset) (next : string -> option string)
    (s : string) : option string :=
  match s with
  | String c s' =>
      if in_class cs c then
        match match_star cs next s' with
        | Some rest => Some rest
        | None => next s
        end
      else next s
  | EmptyString => next s
  end.

(** [match_items r s k]: match [r] at the start of [s]; the result is what
    is left of [s] after the first match, in backtracking order, whose
    remainder satisfies [k]. *)
Fixpoint match_items (r : list (charset * quant)) (s : string)
    (k : string -> bool) : option string :=
  match r with
  | [] => if k s then Some s else None
  | (cs, One) :: r' =>
      match s with
      | String c s' => if in_class cs c then match_items r' s' k else None
      | EmptyString => None
      end
  | (cs, Star) :: r' => match_star cs (fun t => match_items r' t k) s
  | (cs, Plus) :: r' =>
      match s with
      | String c s' =>
          if in_class cs c then match_star cs (fun t => match_items r' t k) s'
          else None
      | EmptyString => None
      end
  end.

(** [pattern.match(s)]: a match at the start of [s]. *)
Definition match_prefix (p : pattern) (s : string) : option string :=
  match_items (items p) s (fun _ => true).

(** The pattern matches the whole of [s]. *)
Definition fullmatch (p : pattern) (s : string) : bool :=
  match match_items (items p) s (fun t => String.eqb t "") with
  | Some _ => true
  | None => false
  end.

(** The loop of [pattern.split(s, maxsplit)]: [s] is the text not scanned
    yet, [pending] the text since the last split, [n] the number of splits
    made.  [maxsplit = 0] is no limit.  The patterns of this module match
    no empty text ([match_separator_shorter], [match_typevar_shorter]); the
    loop passes over an empty match, which they never give. *)
Fixpoint split_loop (fuel : nat) (p : pattern) (maxsplit n : nat)
    (pending s : string) : list string :=
  match fuel with
  | O => [pending +:+ s]
  | S fuel' =>
      if negb (Nat.eqb maxsplit 0) && Nat.leb maxsplit n then [pending +:+ s]
      else
        let skip :=
          match s with
          | String c s' =>
              split_loop fuel' p maxsplit n (pending +:+ String c "") s'
          | EmptyString => [pending]
          end in
        match match_prefix p s with
        | Some rest =>
            if Nat.ltb (String.length rest) (String.length s) then
              let matched :=
                substring 0 (String.length s - String.length rest) s in
              pending :: (if capture p then [matched] else [])
                ++ split_loop fuel' p maxsplit (S n) "" rest
            else skip
        | None => skip
        end
  end.

(** After [n] splits the loop may split again. *)
Definition below_limit (maxsplit n : nat) : Prop :=
  maxsplit = 0 \/ n < maxsplit.

(** The loop, with the turns the text left to scan can need. *)
Definition split_from (p : pattern) (maxsplit n : nat) (pending s : string)
    : list string :=
  split_loop (S (String.length s)) p maxsplit n pending s.

(** [pattern.split(s, maxsplit)] *)
Definition split (p : pattern) (s : string) (maxsplit : nat) : list string :=
  split_from p maxsplit 0 "" s.

(** [re._special_chars_map] of Python 3.7 and later: the characters
    [re.escape] puts a backslash before, [()[]{}?*+-|^$\.&~#] and the ASCII
    whitespace.  Every other character is left as it is. *)
Definition isescaped (c : ascii) : bool :=
  let n := nat_of_ascii c in
  (Nat.leb 9 n && Nat.leb n 13)
  || existsb (Ascii.eqb c)
       ["("; ")"; "["; "]"; "{"; "}"; "?"; "*"; "+"; "-"; "|"; "^"; "$";
        "\"; "."; "&"; "~"; "#"; " "]%char.

(** [re.escape] *)
Definition escape_char (c : ascii) : string :=
  if isescaped c then String "\" (String c "") else String c "".

Fixpoint escape (s : string) : string :=
  match s with
  | EmptyString => ""
  | String c s' => escape_char c +:+ escape s'
  end.

(** *** Reading a pattern string *)

Definition isoctal (c : ascii) : bool :=
  let n := nat_of_ascii c in Nat.leb 48 n && Nat.leb n 55.

Definition octal (c : ascii) : nat := nat_of_ascii c - 48.

(** Characters with a meaning of their own in a pattern. *)
Definition isspecial (c : ascii) : bool :=
  existsb (Ascii.eqb c)
    ["."; "^"; "$"; "*"; "+"; "?"; "{"; "}"; "["; "]"; "\"; "|"; "("; ")"]%char.

(** One character class at the start of [s]: an escape, [[a-b]] or a plain
    character.  [None] is a pattern outside the fragment. *)
Definition parse_escape (c : ascii) (rest : string) : option (charset * string) :=
  if Ascii.eqb c "w" then Some (CWord, rest)
  else if Ascii.eqb c "s" then Some (CSpace, rest)
  else if Ascii.eqb c "0" then
    match rest with
    | String a (String b rest') =>
        if isoctal a && isoctal b
        then Some (CLit (ascii_of_nat (8 * octal a + octal b)), rest')
        else if isoctal a then Some (CLit (ascii_of_nat (octal a)), String b rest')
        else Some (CLit Ascii.zero, rest)
    | String a EmptyString =>
        if isoctal a then Some (CLit (ascii_of_nat (octal a)), "")
        else Some (CLit Ascii.zero, rest)
    | EmptyString => Some (CLit Ascii.zero, rest)
    end
  else if Py.isalnum c then None
  else Some (CLit c, rest).

Definition parse_range (s : string) : option (charset * string) :=
  match s with
  | String lo (String dash (String hi (String close rest))) =>
      if Ascii.eqb dash "-" && Ascii.eqb close "]"
         && Py.isalnum lo && Py.isalnum hi
      then Some (CRange lo hi, rest) else None
  | _ => None
  end.

Definition parse_atom (s : string) : option (charset * string) :=
  match s with
  | String c rest =>
      if Ascii.eqb c "\" then
        match rest with
        | String e rest' => parse_escape e rest'
        | EmptyString => None
        end
      else if Ascii.eqb c "[" then parse_range rest
      else if isspecial c then None
      else Some (CLit c, rest)
  | EmptyString => None
  end.

(** The quantifier after an atom. *)
Definition parse_quant (s : string) : option (quant * string) :=
  match s with
  | String c rest =>
      if Ascii.eqb c "*" || Ascii.eqb c "+" then
        match rest with
        | String d _ =>
            if Ascii.eqb d "?" || Ascii.eqb d "+" || Ascii.eqb d "*" || Ascii.eqb d "{"
            then None
            else Some (if Ascii.eqb c "*" then Star else Plus, rest)
        | EmptyString => Some (if Ascii.eqb c "*" then Star else Plus, rest)
        end
      else if Ascii.eqb c "?" || Ascii.eqb c "{" then None
      else Some (One, s)
  | EmptyString => Some (One, s)
  end.

(** Items up to the end of the string or a closing parenthesis. *)
Fixpoint parse_items (fuel : nat) (s : string)
    : option (list (charset * quant) * string) :=
  match fuel with
  | O => None
  | S fuel' =>
      match s with
      | EmptyString => Some ([], s)
      | String c _ =>
          if Ascii.eqb c ")" then Some ([], s)
          else
            '(cs, s1) ← parse_atom s;
            '(q, s2) ← parse_quant s1;
            '(its, rest) ← parse_items fuel' s2;
            Some ((cs, q) :: its, rest)
      end
  end.

(** [re.compile] *)
Definition compile (s : string) : option pattern :=
  match s with
  | EmptyString => Some {| capture := false; items := [] |}
  | String c s' =>
      if Ascii.eqb c "(" then
        '(its, rest) ← parse_items (S (String.length s')) s';
        if String.eqb rest ")" then Some {| capture := true; items := its |}
        else None
      else
        '(its, rest) ← parse_items (S (String.length s)) s;
        if String.eqb rest "" then Some {| capture := false; items := its |}
        else None
  end.

(** *** Writing a pattern

    The items of the patterns [parse_type] returns: an escaped character or
    [\w+]. *)
Definition escaped_item (it : charset * quant) : Prop :=
  it = (CWord, Plus) \/ exists c, it = (CLit c, One).

Definition item_text (it : charset * quant) : string :=
  match it with
  | (CWord, Plus) => "\w+"
  | (CLit c, One) => escape_char c
  | _ => ""
  end.

Definition items_text (its : list (charset * quant)) : string :=
  foldr (fun it acc => item_text it +:+ acc) "" its.

(** The start of a pattern text that ends the item before it. *)
Definition item_start (s : string) : Prop :=
  match s with
  | String a _ => isspecial a = false \/ a = "\"%char
  | EmptyString => True
  end.

End Re.

(** ** Documentation nodes *)

(** The three node kinds the domain appends to a signature node. *)
Inductive node : Type :=
  | Emphasis (text : string)      (* nodes.emphasis(p, p) *)
  | DescName (text : string)      (* addnodes.desc_name(p, p) *)
  | Text (text : string).         (* nodes.Text(s) *)

(** [addnodes.desc_signature]: its children and the attributes
    [add_target_and_index] touches. *)
Record desc_signature : Type := {
  children : list node;
  sig_names : list string;
  sig_ids : list string;
  sig_first : bool
}.

Definition empty_signode : desc_signature :=
  {| children := []; sig_names := []; sig_ids := []; sig_first := false |}.

(** [signode += n] *)
Definition signode_add (signode : desc_signature) (n : node) : desc_signature :=
  {| children := children signode ++ [n];
     sig_names := sig_names signode;
     sig_ids := sig_ids signode;
     sig_first := sig_first signode |}.

(** [signode += n] for each [n] of [l] in turn *)
Definition signode_extend (signode : desc_signature) (l : list node)
    : desc_signature :=
  {| children := children signode ++ l;
     sig_names := sig_names signode;
     sig_ids := sig_ids signode;
     sig_first := sig_first signode |}.

(** ** Type signatures *)

(** [typevar = re.compile('(\%[A-Z])')]: type variables are indicated as %T. *)
Definition typevar_source : string := "(\%[A-Z])".

Definition typevar : Re.pattern :=
  {| Re.capture := true;
     Re.items := [(Re.CLit "%", Re.One); (Re.CRange "A" "Z", Re.One)] |}.

(** [len(part) == 2 and part[0] == '%'] *)
Definition looks_like_typevar (part : string) : bool :=
  Nat.eqb (String.length part) 2
  && bool_decide (String.get 0 part = Some "%"%char).

(** One turn of the loop of [parse_type]. *)
Definition parse_type_part (acc : desc_signature * string) (part : string)
    : desc_signature * string :=
  let '(signode, re_str) := acc in
  if String.eqb part "" then acc
  else if looks_like_typevar part then
    let part := substring 1 1 part in
    (signode_add signode (Emphasis part), re_str +:+ "\w+")
  else
    (signode_add signode (DescName part), re_str +:+ Re.escape part).

(** [parse_type(name, signode)]: the node after the appends, and the
    returned pattern string. *)
Definition parse_type (name : string) (signode : desc_signature)
    : desc_signature * string :=
  foldl parse_type_part (signode, "") (Re.split typevar name 0).

(** *** What the signature grammar says

    The segments of a type signature: a placeholder is a [%] followed by
    one uppercase letter, found from left to right; a segment is the
    non-empty text between placeholders. *)

Inductive segment : Type :=
  | Placeholder (letter : ascii)
  | Verbatim (text : string).

Definition flush (cur : string) : list segment :=
  if String.eqb cur "" then [] else [Verbatim cur].

Fixpoint type_segments (cur : string) (s : string) : list segment :=
  match s with
  | EmptyString => flush cur
  | String c s' =>
      match s' with
      | String x rest =>
          if Ascii.eqb c "%" && Py.isupper x
          then flush cur ++ Placeholder x :: type_segments "" rest
          else type_segments (cur +:+ String c "") s'
      | EmptyString => type_segments (cur +:+ String c "") s'
      end
  end.

Definition render_segment (acc : desc_signature * string) (sg : segment)
    : desc_signature * string :=
  let '(signode, re_str) := acc in
  match sg with
  | Placeholder x =>
      (signode_add signode (Emphasis (String x "")), re_str +:+ "\w+")
  | Verbatim text =>
      (signode_add signode (DescName text), re_str +:+ Re.escape text)
  end.

(** A segment that the test of [parse_type] does not take for a type
    variable. *)
Definition segment_clear (sg : segment) : Prop :=
  match sg with
  | Placeholder _ => True
  | Verbatim text => looks_like_typevar text = false
  end.

(** The pattern items of a segment. *)
Definition segment_items (sg : segment) : list (Re.charset * Re.quant) :=
  match sg with
  | Placeholder _ => [(Re.CWord, Re.Plus)]
  | Verbatim text =>
      map (fun c => (Re.CLit c, Re.One)) (list_ascii_of_string text)
  end.

(** The rendering the grammar asks of [parse_type]. *)
Definition parse_type_spec (name : string) (signode : desc_signature)
    : desc_signature * string :=
  foldl render_segment (signode, "") (type_segments "" name).

(** A non-empty sequence of word characters. *)
Definition word_text (w : string) : Prop :=
  w <> "" /\ Forall (fun c => Py.isword c = true) (list_ascii_of_string w).

(** [instance_of segs t]: [t] is the signature with each placeholder
    replaced by some non-empty sequence of word characters. *)
Inductive instance_of : list segment -> string -> Prop :=
  | instance_nil : instance_of [] ""
  | instance_placeholder x segs w t :
      word_text w -> instance_of segs t ->
      instance_of (Placeholder x :: segs) (w +:+ t)
  | instance_verbatim text segs t :
      instance_of segs t ->
      instance_of (Verbatim text :: segs) (text +:+ t).

Definition type_instance (name t : string) : Prop :=
  instance_of (type_segments "" name) t.

(** ** Instruction signatures *)

(** [sep_equal = re.compile('\s*=\s*')] *)
Definition sep_equal_source : string := "\s*=\s*".

Definition sep_equal : Re.pattern :=
  {| Re.capture := false;
     Re.items := [(Re.CSpace, Re.Star); (Re.CLit "=", Re.One); (Re.CSpace, Re.Star)] |}.

(** [sep_comma = re.compile('\s*,\s*')] *)
Definition sep_comma_source : string := "\s*,\s*".

Definition sep_comma : Re.pattern :=
  {| Re.capture := false;
     Re.items := [(Re.CSpace, Re.Star); (Re.CLit ",", Re.One); (Re.CSpace, Re.Star)] |}.

(** One turn of the loop of [parse_params], on the pair of the node and the
    index [i] of [enumerate]. *)
Definition parse_params_step (acc : desc_signature * nat) (p : string)
    : desc_signature * nat :=
  let '(signode, i) := acc in
  let signode :=
    if negb (Nat.eqb i 0) then signode_add signode (Text ", ") else signode in
  (signode_add signode (Emphasis p), S i).

Definition parse_params (s : string) (signode : desc_signature)
    : desc_signature :=
  fst (foldl parse_params_step (signode, 0) (Re.split sep_comma s 0)).

(** [ClifInst.handle_signature] *)
Definition handle_signature (sig : string) (signode : desc_signature)
    : Py.outcome (string * desc_signature) :=
  let parts := Re.split sep_equal sig 1 in
  '(signode, name) ←
    (if Nat.eqb (length parts) 2 then
       outs ← Py.index parts 0;
       let signode := parse_params outs signode in
       let signode := signode_add signode (Text " = ") in
       name ← Py.index parts 1;
       mret (signode, name)
     else
       name ← Py.index parts 0;
       mret (signode, name));
  let parts := Py.split_whitespace 1 name in
  name ← Py.index parts 0;
  let signode := signode_add signode (DescName name) in
  signode ←
    (if Nat.eqb (length parts) 2 then
       let signode := signode_add signode (Text " ") in
       ins ← Py.index parts 1;
       mret (parse_params ins signode)
     else mret signode);
  mret (name, signode).

(** *** The written form of an instruction signature

    [outs] and [ins] are lists of identifiers separated by commas, with any
    whitespace around a comma, around the [=] and between the name and the
    inputs. *)

Record id_list : Type := {
  first_id : string;
  more_ids : list (string * string * string)   (* space, space, identifier *)
}.

Definition ids_of (l : id_list) : list string :=
  first_id l :: map (fun x => x.2) (more_ids l).

Definition ids_text (l : id_list) : string :=
  first_id l +:+
  foldr (fun '(w1, w2, p) acc => w1 +:+ "," +:+ w2 +:+ p +:+ acc) "" (more_ids l).

Record inst_signature : Type := {
  sig_outs : option (id_list * string * string);  (* outs, space, space *)
  sig_name : string;
  sig_ins : option (string * id_list)             (* space, ins *)
}.

Definition written_outs (outs : option (id_list * string * string)) : string :=
  match outs with
  | Some (outs, w1, w2) => ids_text outs +:+ w1 +:+ "=" +:+ w2
  | None => ""
  end.

Definition written_ins (ins : option (string * id_list)) : string :=
  match ins with
  | Some (w, ins) => w +:+ ids_text ins
  | None => ""
  end.

Definition signature_text (sg : inst_signature) : string :=
  written_outs (sig_outs sg) +:+ sig_name sg +:+ written_ins (sig_ins sg).

Definition all_space (w : string) : Prop :=
  Forall (fun c => Py.isspace c = true) (list_ascii_of_string w).

(** Text free of whitespace, commas and [=]. *)
Definition plain (p : string) : Prop :=
  Forall (fun c => Py.isspace c = false /\ c <> ","%char /\ c <> "="%char)
         (list_ascii_of_string p).

(** An identifier: not empty, and free of whitespace, commas and [=]. *)
Definition identifier (p : string) : Prop := p <> "" /\ plain p.

Definition id_list_ok (l : id_list) : Prop :=
  identifier (first_id l) /\
  Forall (fun '(w1, w2, p) => all_space w1 /\ all_space w2 /\ identifier p)
         (more_ids l).

Definition ins_ok (ins : option (string * id_list)) : Prop :=
  match ins with
  | Some (w, ins) => w <> "" /\ all_space w /\ id_list_ok ins
  | None => True
  end.

(** Text free of whitespace and commas; it may hold [=]. *)
Definition loose (p : string) : Prop :=
  Forall (fun c => Py.isspace c = false /\ c <> ","%char)
         (list_ascii_of_string p).

(** A token: not empty, and free of whitespace and commas. *)
Definition token (p : string) : Prop := p <> "" /\ loose p.

Definition token_list_ok (l : id_list) : Prop :=
  token (first_id l) /\
  Forall (fun '(w1, w2, p) => all_space w1 /\ all_space w2 /\ token p)
         (more_ids l).

Definition ins_tokens_ok (ins : option (string * id_list)) : Prop :=
  match ins with
  | Some (w, ins) => w <> "" /\ all_space w /\ token_list_ok ins
  | None => True
  end.

(** A signature with outputs is cut at its first [=]: the outputs hold no
    [=], the name and the inputs may.  A signature without outputs holds no
    [=] at all. *)
Definition signature_ok (sg : inst_signature) : Prop :=
  match sig_outs sg with
  | Some (outs, w1, w2) =>
      id_list_ok outs /\ all_space w1 /\ all_space w2
      /\ token (sig_name sg) /\ ins_tokens_ok (sig_ins sg)
  | None => identifier (sig_name sg) /\ ins_ok (sig_ins sg)
  end.

(** The signature [v0, v1 = inst op0, imm=1]. *)
Definition example_signature : inst_signature :=
  {| sig_outs :=
       Some ({| first_id := "v0"; more_ids := [("", " ", "v1")] |}, " ", " ");
     sig_name := "inst";
     sig_ins :=
       Some (" ", {| first_id := "op0"; more_ids := [("", " ", "imm=1")] |}) |}.

(** Identifiers as emphasis nodes joined by [', ']. *)
Fixpoint emphasized (ps : list string) : list node :=
  match ps with
  | [] => []
  | [p] => [Emphasis p]
  | p :: ps' => Emphasis p :: Text ", " :: emphasized ps'
  end.

Definition signature_nodes (sg : inst_signature) : list node :=
  match sig_outs sg with
  | Some (outs, _, _) => emphasized (ids_of outs) ++ [Text " = "]
  | None => []
  end ++ [DescName (sig_name sg)] ++
  match sig_ins sg with
  | Some (_, ins) => Text " " :: emphasized (ids_of ins)
  | None => []
  end.

(** ** The objects index and the build state *)

(** An entry of [indexnode['entries']]:
    [('single', indextext, targetname, '', None)]. *)
Definition index_entry : Type :=
  (string * string * string * string * option string)%type.

Record build_state : Type := {
  document_ids : gset string;                 (* keys of state.document.ids *)
  objects : gmap string (string * string);    (* fullname -> docname, objtype *)
  warnings : list (string * nat);             (* reporter.warning(msg, line) *)
  index_entries : list index_entry            (* indexnode['entries'] *)
}.

(** The fields of the directive instance that [add_target_and_index] reads. *)
Record directive : Type := {
  dir_names : list string;    (* self.names *)
  dir_lineno : nat;           (* self.lineno *)
  env_docname : string        (* self.env.docname *)
}.

(** The subclasses of [ClifObject] that provide [get_index_text]. *)
Class ClifObject : Type := {
  objtype : string;
  get_index_text : string -> string
}.

Definition ClifType_index : ClifObject :=
  {| objtype := "type"; get_index_text := fun name => name +:+ " (IR type)" |}.

Definition ClifInst_index : ClifObject :=
  {| objtype := "inst"; get_index_text := fun name => name |}.

(** [sphinx.util.nodes.make_refnode(builder, fromdocname, todocname,
    targetid, child, title)]: the reference node, kept as the record of its
    arguments. *)
Record refnode : Type := make_refnode {
  ref_fromdocname : string;
  ref_todocname : string;
  ref_targetid : string;
  ref_child : list node;
  ref_title : string
}.

Section Domain.

(** Host functions the domain calls. *)
Variable doc2path : string -> string.                        (* env.doc2path *)
Variable note_explicit_target :
  desc_signature -> gset string -> gset string.     (* document.note_explicit_target *)
Variable role_for_objtype : string -> string.                (* Domain.role_for_objtype *)

Definition duplicate_warning (name other : string) : string :=
  ("duplicate Cranelift object description of " +:+ name +:+ ", ")
    +:+ "other instance in " +:+ doc2path other.

Definition add_target_and_index `{ClifObject} (self : directive)
    (name sig : string) (signode : desc_signature) (st : build_state)
    : desc_signature * build_state :=
  let targetname := objtype +:+ "-" +:+ name in
  let '(signode, st) :=
    if decide (targetname ∉ document_ids st) then
      let signode :=
        {| children := children signode;
           sig_names := sig_names signode ++ [targetname];
           sig_ids := sig_ids signode ++ [targetname];
           sig_first := match dir_names self with [] => true | _ => false end |} in
      let ids := note_explicit_target signode (document_ids st) in
      let inv := objects st in
      let warns :=
        match inv !! name with
        | Some other =>
            warnings st ++ [(duplicate_warning name (fst other), dir_lineno self)]
        | None => warnings st
        end in
      let inv := <[name := (env_docname self, objtype)]> inv in
      (signode,
       {| document_ids := ids; objects := inv; warnings := warns;
          index_entries := index_entries st |})
    else (signode, st) in
  let indextext := get_index_text name in
  if decide (indextext = "") then (signode, st)
  else
    (signode,
     {| document_ids := document_ids st; objects := objects st;
        warnings := warnings st;
        index_entries :=
          index_entries st ++ [("single", indextext, targetname, "", None)] |}).

(** [CraneliftDomain.clear_doc]: the loop runs over a snapshot of the items. *)
Definition clear_doc (docname : string) (objs : gmap string (string * string))
    : gmap string (string * string) :=
  foldl (fun acc '(fullname, (fn, _l)) =>
           if decide (fn = docname) then delete fullname acc else acc)
        objs (map_to_list objs).

(** [CraneliftDomain.merge_domaindata] *)
Definition merge_domaindata (docnames : gset string)
    (otherdata objs : gmap string (string * string))
    : gmap string (string * string) :=
  foldl (fun acc '(fullname, (fn, objtype)) =>
           if decide (fn ∈ docnames) then <[fullname := (fn, objtype)]> acc
           else acc)
        objs (map_to_list otherdata).

(** [CraneliftDomain.resolve_xref]; Python's [None] is [None]. *)
Definition resolve_xref (objs : gmap string (string * string))
    (fromdocname target : string) (contnode : list node) : option refnode :=
  match objs !! target with
  | None => None
  | Some obj =>
      Some (make_refnode fromdocname (fst obj)
              (snd obj +:+ "-" +:+ target) contnode target)
  end.

(** [CraneliftDomain.resolve_any_xref] *)
Definition resolve_any_xref (objs : gmap string (string * string))
    (fromdocname target : string) (contnode : list node)
    : list (string * refnode) :=
  match objs !! target with
  | None => []
  | Some obj =>
      [("clif:" +:+ role_for_objtype (snd obj),
        make_refnode fromdocname (fst obj)
          (snd obj +:+ "-" +:+ target) contnode target)]
  end.

End Domain.

(** An instruction directive on line 12 of the document [ir]. *)
Definition example_directive : directive :=
  {| dir_names := []; dir_lineno := 12; env_docname := "ir" |}.

(** A build in which [iadd] was described in the document [old] before. *)
Definition described_before : build_state :=
  {| document_ids := ∅;
     objects := {[ "iadd" := ("old", "inst") ]};
     warnings := [];
     index_entries := [] |}.

(** A build in which the document holds the target [inst-iadd] already. *)
Definition target_known : build_state :=
  {| document_ids := {[ "inst-iadd" ]};
     objects := {[ "iadd" := ("old", "inst") ]};
     warnings := [];
     index_entries := [] |}.

(** ** Documenters *)

(** An operand and an instruction, as far as the documenters read them. *)
Record operand : Type := {
  op_name : string;      (* op.name *)
  kind_name : string     (* op.kind.name *)
}.

Record instruction : Type := {
  inst_name : string;
  inst_outs : list operand;
  inst_ins : list operand
}.

Definition variadic (op : operand) : bool :=
  String.eqb (kind_name op) "variable_args".

(** The body of the loop over [inst.ins[1:]]: a call or branch has its
    variable arguments in parentheses. *)
Definition input_step (sig : string) (op : operand) : string :=
  if variadic op then sig +:+ "(" +:+ op_name op +:+ "...)"
  else sig +:+ ", " +:+ op_name op.

(** [InstDocumenter.format_signature] *)
Definition format_signature (inst : instruction) : string :=
  let sig := inst_name inst in
  let sig :=
    if Nat.ltb 0 (length (inst_outs inst))
    then Py.join ", " (map op_name (inst_outs inst)) +:+ " = " +:+ sig
    else sig in
  if Nat.ltb 0 (length (inst_ins inst)) then
    match inst_ins inst with
    | op :: rest =>
        let sig := sig +:+ " " +:+ op_name op in
        let sig := if variadic op then sig +:+ "..." else sig in
        foldl input_step sig rest
    | [] => sig
    end
  else sig.

(** The outputs, joined by [', '] and followed by [' = ']. *)
Definition outs_text (inst : instruction) : string :=
  match inst_outs inst with
  | [] => ""
  | outs => Py.join ", " (map op_name outs) +:+ " = "
  end.

(** The signature as the specification words it: every input after the
    instruction name joined by [', '], a variadic one written [name...] when
    it is the first input and [name(...)] otherwise. *)
Definition claimed_input (first : bool) (op : operand) : string :=
  if variadic op then
    if first then op_name op +:+ "..." else op_name op +:+ "(...)"
  else op_name op.

Definition claimed_inputs (ins : list operand) : list string :=
  match ins with
  | [] => []
  | op :: rest => claimed_input true op :: map (claimed_input false) rest
  end.

Definition claimed_signature (inst : instruction) : string :=
  outs_text inst +:+ inst_name inst +:+
  match inst_ins inst with
  | [] => ""
  | ins => " " +:+ Py.join ", " (claimed_inputs ins)
  end.

(** A call: a callee and a variable number of arguments and results. *)
Definition call_inst : instruction :=
  {| inst_name := "call";
     inst_outs := [{| op_name := "rvals"; kind_name := "variable_args" |}];
     inst_ins := [{| op_name := "FN"; kind_name := "func_ref" |};
                  {| op_name := "args"; kind_name := "variable_args" |}] |}.

(** [Documenter.add_line(line, sourcename)] *)
Definition add_line (line : string) (result : list string) : list string :=
  result ++ [line].

Section InstGroup.

(** [ModuleLevelDocumenter.add_content], the host's part of the content. *)
Variable super_add_content : list string -> list string.

(** [InstGroupDocumenter.add_content] *)
Definition add_content (indexed : gmap string (string * string))
    (instructions : list instruction) (result : list string) : list string :=
  let result := super_add_content result in
  let names := map inst_name instructions in
  let names := merge_sort String.le names in
  foldl (fun result name =>
           if decide (is_Some (indexed !! name))
           then add_line (":clif:inst:`" +:+ name +:+ "`") result
           else add_line ("``" +:+ name +:+ "``") result)
        result names.

End InstGroup.

(** ** The type directive and the remaining documenters *)

(** [ClifType.handle_signature]: the name, and the node after the appends. *)
Definition ClifType_handle_signature (sig : string) (signode : desc_signature)
    : string * desc_signature :=
  let name := Py.strip sig in
  let signode := (parse_type name signode).1 in
  (name, signode).

(** [InstDocumenter.resolve_name]: the module name and the object path;
    [path] is [None] or a dotted prefix. *)
Definition resolve_name (path : option string) (base : string)
    : string * list string :=
  match path with
  | Some p =>
      if String.eqb p "" then ("base.instructions", [base])
      else (Py.rstrip_with (fun c => Ascii.eqb c ".") p, [base])
  | None => ("base.instructions", [base])
  end.

Section TypeDocumenter.

(** [Documenter.add_content], the host's part of the content. *)
Variable super_add_content : list string -> list string.

(** [TypeDocumenter.add_content]; [membytes] is [None] or a byte count,
    written in decimal by [format]. *)
Definition type_add_content (membytes : option nat) (result : list string)
    : list string :=
  let result := super_add_content result in
  match membytes with
  | Some (S n) => add_line (":bytes: " +:+ pretty (S n)) result
  | _ => add_line ":bytes: Can't be stored in memory" result
  end.

End TypeDocumenter.

(** *** The inputs of a formatted signature

    The items between the [', '] of the inputs: an input that is not
    variadic starts an item, a variadic one is attached to the item before
    it. *)
Fixpoint shown_from (cur : string) (rest : list operand) : list string :=
  match rest with
  | [] => [cur]
  | op :: rest' =>
      if variadic op
      then shown_from (cur +:+ "(" +:+ op_name op +:+ "...)") rest'
      else cur :: shown_from (op_name op) rest'
  end.

Definition shown_inputs (ins : list operand) : list string :=
  match ins with
  | [] => []
  | op :: rest =>
      shown_from (if variadic op then op_name op +:+ "..." else op_name op) rest
  end.

(** A list of identifiers written with [', '] between them. *)
Definition comma_space (p0 : string) (ps : list string) : id_list :=
  {| first_id := p0; more_ids := map (fun p => ("", " ", p)) ps |}.

(** The written form of the signature [format_signature] produces. *)
Definition formatted (inst : instruction) : inst_signature :=
  {| sig_outs :=
       match map op_name (inst_outs inst) with
       | [] => None
       | p0 :: ps => Some (comma_space p0 ps, " ", " ")
       end;
     sig_name := inst_name inst;
     sig_ins :=
       match shown_inputs (inst_ins inst) with
       | [] => None
       | p0 :: ps => Some (" ", comma_space p0 ps)
       end |}.

(** The code points a class holds. *)
Definition codes_of (class : ascii -> bool) : list nat :=
  filter (fun n => class (ascii_of_nat n)) (seq 0 256).

(** U+001F, whitespace; U+00F1, a letter; U+00D7, the multiplication
    sign. *)
Definition unit_separator : ascii := "031"%char.
Definition n_tilde : ascii := "241"%char.
Definition times_sign : ascii := "215"%char.

(** A character of a string. *)
Definition has_char (d : ascii) (s : string) : Prop :=
  d ∈ list_ascii_of_string s.

(** The pattern items of a part of [typevar.split], as the loop of
    [parse_type] takes it. *)
Definition part_items (part : string) : list (Re.charset * Re.quant) :=
  if String.eqb part "" then []
  else if looks_like_typevar part then [(Re.CWord, Re.Plus)]
  else map (fun c => (Re.CLit c, Re.One)) (list_ascii_of_string part).

(** The nodes of a part of [typevar.split]. *)
Definition part_nodes (part : string) : list node :=
  if String.eqb part "" then []
  else if looks_like_typevar part then [Emphasis (substring 1 1 part)]
  else [DescName part].

(** * Properties *)

(** ** Strings *)

Lemma string_app_cons (c : ascii) (s1 s2 : string) :
  String c s1 +:+ s2 = String c (s1 +:+ s2).
Proof. reflexivity. Qed.

Lemma string_app_nil_l (s : string) : "" +:+ s = s.
Proof. reflexivity. Qed.

Lemma string_app_assoc (s1 s2 s3 : string) :
  (s1 +:+ s2) +:+ s3 = s1 +:+ s2 +:+ s3.
Proof.
  induction s1 as [|c s1 IH]; [done|].
  by rewrite !string_app_cons, IH.
Qed.

Lemma string_app_nil_r (s : string) : s +:+ "" = s.
Proof.
  induction s as [|c s IH]; [done|]. by rewrite string_app_cons, IH.
Qed.

Lemma string_length_app (s1 s2 : string) :
  String.length (s1 +:+ s2) = String.length s1 + String.length s2.
Proof.
  induction s1 as [|c s1 IH]; [done|].
  rewrite string_app_cons. cbn. by rewrite IH.
Qed.

Lemma string_app_snoc (s1 s2 : string) (c : ascii) :
  (s1 +:+ String c "") +:+ s2 = s1 +:+ String c s2.
Proof. by rewrite string_app_assoc. Qed.

Lemma substring_0_0 (s : string) : substring 0 0 s = "".
Proof. by destruct s. Qed.

(** ** The objects index *)

Section IndexFacts.

Variable doc2path : string -> string.
Variable note_explicit_target : desc_signature -> gset string -> gset string.
Variable role_for_objtype : string -> string.

Implicit Types (objs other acc : gmap string (string * string)).
Implicit Types (l : list (string * (string * string))).

(** The loop of [clear_doc] over a duplicate-free list of items. *)
Lemma clear_loop_lookup docname l acc k :
  NoDup l.*1 ->
  foldl (fun acc '(fullname, (fn, _l)) =>
           if decide (fn = docname) then delete fullname acc else acc)
        acc l !! k
  = match (list_to_map l : gmap string (string * string)) !! k with
    | Some (fn, _) => if decide (fn = docname) then None else acc !! k
    | None => acc !! k
    end.
Proof.
  revert acc. induction l as [|[k' [fn ty]] l IH]; intros acc Hnd.
  - cbn. by rewrite lookup_empty.
  - apply NoDup_cons in Hnd as [Hk' Hnd]. cbn [foldl]. rewrite list_to_map_cons.
    rewrite IH by done. apply not_elem_of_list_to_map_1 in Hk'. cbn in Hk'.
    destruct (decide (k = k')) as [->|Hne].
    + rewrite Hk', lookup_insert_eq.
      destruct (decide (fn = docname)); [by rewrite lookup_delete_eq|done].
    + rewrite lookup_insert_ne by done.
      destruct (decide (fn = docname)); [by rewrite lookup_delete_ne|done].
Qed.

Lemma clear_doc_lookup docname objs k :
  clear_doc docname objs !! k
  = match objs !! k with
    | Some (fn, ty) => if decide (fn = docname) then None else Some (fn, ty)
    | None => None
    end.
Proof.
  unfold clear_doc. rewrite clear_loop_lookup by apply NoDup_fst_map_to_list.
  rewrite list_to_map_to_list.
  destruct (objs !! k) as [[fn ty]|] eqn:E; [|done].
  by destruct (decide (fn = docname)).
Qed.

(** The loop of [merge_domaindata] over a duplicate-free list of items. *)
Lemma merge_loop_lookup (docnames : gset string) l acc k :
  NoDup l.*1 ->
  foldl (fun acc '(fullname, (fn, objtype)) =>
           if decide (fn ∈ docnames) then <[fullname := (fn, objtype)]> acc
           else acc)
        acc l !! k
  = match (list_to_map l : gmap string (string * string)) !! k with
    | Some (fn, ty) => if decide (fn ∈ docnames) then Some (fn, ty) else acc !! k
    | None => acc !! k
    end.
Proof.
  revert acc. induction l as [|[k' [fn ty]] l IH]; intros acc Hnd.
  - cbn. by rewrite lookup_empty.
  - apply NoDup_cons in Hnd as [Hk' Hnd]. cbn [foldl]. rewrite list_to_map_cons.
    rewrite IH by done. apply not_elem_of_list_to_map_1 in Hk'. cbn in Hk'.
    destruct (decide (k = k')) as [->|Hne].
    + rewrite Hk', lookup_insert_eq.
      destruct (decide (fn ∈ docnames)); [by rewrite lookup_insert_eq|done].
    + rewrite lookup_insert_ne by done.
      destruct ((list_to_map l : gmap string (string * string)) !! k)
        as [[fn' ty']|]; [destruct (decide (fn' ∈ docnames)); [done|]|];
        (destruct (decide (fn ∈ docnames)); [by rewrite lookup_insert_ne|done]).
Qed.

Lemma merge_domaindata_lookup (docnames : gset string) other objs k :
  merge_domaindata docnames other objs !! k
  = match other !! k with
    | Some (fn, ty) => if decide (fn ∈ docnames) then Some (fn, ty) else objs !! k
    | None => objs !! k
    end.
Proof.
  unfold merge_domaindata.
  rewrite merge_loop_lookup by apply NoDup_fst_map_to_list.
  by rewrite list_to_map_to_list.
Qed.

(** C5: registering a name that the index already holds appends one warning,
    which names the document of the other instance, and replaces the entry
    by the pair of the current document and the object type. *)
Theorem add_target_and_index_duplicate `{ClifObject} (self : directive)
    (name sig : string) (signode : desc_signature) (st : build_state)
    (other_doc other_type : string) :
  objtype +:+ "-" +:+ name ∉ document_ids st ->
  objects st !! name = Some (other_doc, other_type) ->
  let st' :=
    (add_target_and_index doc2path note_explicit_target self name sig signode st).2 in
  warnings st'
  = warnings st ++
      [("duplicate Cranelift object description of " +:+ name +:+ ", "
          +:+ "other instance in " +:+ doc2path other_doc,
        dir_lineno self)]
  /\ objects st' = <[name := (env_docname self, objtype)]> (objects st)
  /\ objects st' !! name = Some (env_docname self, objtype).
Proof.
  intros Hfresh Hdup. unfold add_target_and_index. cbn zeta.
  destruct (decide (objtype +:+ "-" +:+ name ∉ document_ids st)); [|done].
  rewrite Hdup.
  destruct (decide (get_index_text name = "")); cbn; rewrite lookup_insert_eq;
    unfold duplicate_warning; by rewrite !string_app_assoc.
Qed.

(** C9: when the target name is already among the ids of the document, the
    index and the warnings stay as they are. *)
Theorem add_target_and_index_known_target `{ClifObject} (self : directive)
    (name sig : string) (signode : desc_signature) (st : build_state) :
  objtype +:+ "-" +:+ name ∈ document_ids st ->
  let st' :=
    (add_target_and_index doc2path note_explicit_target self name sig signode st).2 in
  objects st' = objects st /\ warnings st' = warnings st
  /\ document_ids st' = document_ids st.
Proof.
  intros Hin. unfold add_target_and_index. cbn zeta.
  destruct (decide (objtype +:+ "-" +:+ name ∉ document_ids st)); [done|].
  by destruct (decide (get_index_text name = "")).
Qed.

(** The index changes only when the target name is new to the document. *)
Lemma add_target_and_index_changes `{ClifObject} (self : directive)
    (name sig : string) (signode : desc_signature) (st : build_state) :
  objects (add_target_and_index doc2path note_explicit_target
             self name sig signode st).2 <> objects st ->
  objtype +:+ "-" +:+ name ∉ document_ids st.
Proof.
  intros Hne Hin. apply Hne. unfold add_target_and_index.
  destruct (decide (objtype +:+ "-" +:+ name ∉ document_ids st)); [done|].
  by destruct (decide (get_index_text name = "")).
Qed.

(** C6: [resolve_xref] is [None] exactly for a target outside the index and
    is otherwise the reference to the stored document with the id
    [objtype-target]; [resolve_any_xref] is empty in the first case and has
    that one reference in the second. *)
Theorem resolve_xref_spec objs (fromdocname target : string)
    (contnode : list node) :
  (resolve_xref objs fromdocname target contnode = None <-> target ∉ dom objs)
  /\ (resolve_any_xref role_for_objtype objs fromdocname target contnode = []
      <-> target ∉ dom objs)
  /\ match objs !! target with
     | Some (docname, objtype) =>
         let ref :=
           make_refnode fromdocname docname (objtype +:+ "-" +:+ target)
             contnode target in
         resolve_xref objs fromdocname target contnode = Some ref
         /\ resolve_any_xref role_for_objtype objs fromdocname target contnode
            = [("clif:" +:+ role_for_objtype objtype, ref)]
     | None => True
     end.
Proof.
  unfold resolve_xref, resolve_any_xref. rewrite not_elem_of_dom.
  destruct (objs !! target) as [[docname ty]|]; cbn; naive_solver.
Qed.

(** C7: the merged index is the entries of the other index that were
    defined in one of the given documents, laid over the index as it was. *)
Theorem merge_domaindata_spec (docnames : gset string) other objs :
  merge_domaindata docnames other objs
  = filter (fun kv => kv.2.1 ∈ docnames) other ∪ objs.
Proof.
  apply map_eq. intros k. rewrite merge_domaindata_lookup, lookup_union.
  rewrite map_lookup_filter.
  destruct (other !! k) as [[fn ty]|]; cbn.
  - destruct (decide (fn ∈ docnames)).
    + rewrite option_guard_True by done. cbn. by destruct (objs !! k).
    + rewrite option_guard_False by done. cbn. by destruct (objs !! k).
  - by destruct (objs !! k).
Qed.

(** C8: [clear_doc] keeps exactly the entries defined in another document,
    so clearing a document twice is clearing it once. *)
Theorem clear_doc_spec (docname : string) objs :
  clear_doc docname objs = filter (fun kv => kv.2.1 <> docname) objs
  /\ clear_doc docname (clear_doc docname objs) = clear_doc docname objs.
Proof.
  assert (Hfilter : forall m : gmap string (string * string),
             clear_doc docname m = filter (fun kv => kv.2.1 <> docname) m).
  { intros m. apply map_eq. intros k.
    rewrite clear_doc_lookup, map_lookup_filter.
    destruct (m !! k) as [[fn ty]|]; cbn; [|done].
    destruct (decide (fn = docname)).
    - by rewrite option_guard_False by (cbn; tauto).
    - by rewrite option_guard_True by done. }
  split; [apply Hfilter|].
  rewrite !Hfilter. apply map_eq. intros k. rewrite !map_lookup_filter.
  destruct (objs !! k) as [[fn ty]|]; cbn; [|done].
  destruct (decide (fn = docname)).
  - by rewrite option_guard_False by (cbn; tauto).
  - rewrite option_guard_True by done. cbn. by rewrite option_guard_True by done.
Qed.

End IndexFacts.

(** ** Documenters *)

Lemma join_cons (sep x : string) (l : list string) :
  Py.join sep (x :: l) = x +:+ foldr (fun y acc => sep +:+ y +:+ acc) "" l.
Proof.
  revert x. induction l as [|y l IH]; intros x.
  - cbn. by rewrite string_app_nil_r.
  - cbn [foldr]. rewrite <- IH. reflexivity.
Qed.

(** The loop over [inst.ins[1:]] on operands that are not variadic. *)
Lemma fold_fixed_inputs (sig : string) (l : list operand) :
  Forall (fun op => variadic op = false) l ->
  foldl input_step sig l
  = sig +:+ foldr (fun y acc => ", " +:+ y +:+ acc) "" (map op_name l).
Proof.
  revert sig. induction l as [|op l IH]; intros sig Hl.
  - cbn. by rewrite string_app_nil_r.
  - apply Forall_cons in Hl as [Hop Hl]. cbn [foldl map foldr].
    rewrite IH by done. unfold input_step. rewrite Hop.
    by rewrite !string_app_assoc.
Qed.

(** C4, as the code has it: the outputs joined by [', '] and followed by
    [' = '], the instruction name, the inputs that are not variadic joined by
    [', '], and a variadic last input written [name...] when it is the only
    input and [(name...)], put directly after the input before it,
    otherwise. *)
Theorem format_signature_spec (inst : instruction) (fixed : list operand)
    (last : option operand) :
  inst_ins inst = fixed ++ option_list last ->
  Forall (fun op => variadic op = false) fixed ->
  (forall v, last = Some v -> variadic v = true) ->
  format_signature inst
  = outs_text inst +:+ inst_name inst +:+
    match fixed, last with
    | [], None => ""
    | [], Some v => " " +:+ op_name v +:+ "..."
    | _ :: _, None => " " +:+ Py.join ", " (map op_name fixed)
    | _ :: _, Some v =>
        " " +:+ Py.join ", " (map op_name fixed) +:+ "(" +:+ op_name v +:+ "...)"
    end.
Proof.
  intros Hins Hfixed Hlast. unfold format_signature, outs_text.
  rewrite Hins.
  set (sig0 := if Nat.ltb 0 (length (inst_outs inst)) then _ else _).
  assert (Hsig0 : sig0 = match inst_outs inst with
                         | [] => ""
                         | outs => Py.join ", " (map op_name outs) +:+ " = "
                         end +:+ inst_name inst).
  { subst sig0. destruct (inst_outs inst); cbn [length Nat.ltb Nat.leb];
      [done|by rewrite string_app_assoc]. }
  rewrite Hsig0. clear sig0 Hsig0.
  destruct fixed as [|op fixed].
  - destruct last as [v|]; cbn.
    + rewrite (Hlast v eq_refl). by rewrite !string_app_assoc.
    + by rewrite string_app_nil_r.
  - apply Forall_cons in Hfixed as [Hop Hfixed].
    cbn [app length Nat.ltb Nat.leb]. rewrite Hop, foldl_app.
    rewrite (fold_fixed_inputs _ fixed) by done. cbn [map]. rewrite join_cons.
    destruct last as [v|];
      [change (option_list (Some v)) with [v]
      |change (option_list (@None operand)) with (@nil operand)]; cbn [foldl].
    + unfold input_step at 1. rewrite (Hlast v eq_refl).
      by rewrite !string_app_assoc.
    + by rewrite !string_app_assoc.
Qed.

(** C4, as the claim words it, fails on a call: the variadic argument list
    comes out as [(args...)] directly after the callee, not as [args(...)]
    after a comma. *)
Lemma format_signature_call_counterexample :
  format_signature call_inst = "rvals = call FN(args...)"
  /\ claimed_signature call_inst = "rvals = call FN, args(...)"
  /\ format_signature call_inst <> claimed_signature call_inst.
Proof. by vm_compute. Qed.

(** The loop of [InstGroupDocumenter.add_content]. *)
Lemma add_content_loop (indexed : gmap string (string * string))
    (names result : list string) :
  foldl (fun result name =>
           if decide (is_Some (indexed !! name))
           then add_line (":clif:inst:`" +:+ name +:+ "`") result
           else add_line ("``" +:+ name +:+ "``") result)
        result names
  = result ++
    map (fun name =>
           if decide (name ∈ dom indexed)
           then ":clif:inst:`" +:+ name +:+ "`"
           else "``" +:+ name +:+ "``")
        names.
Proof.
  revert result. induction names as [|name names IH]; intros result.
  - cbn. by rewrite app_nil_r.
  - cbn [foldl map]. rewrite IH. unfold add_line.
    destruct (decide (is_Some (indexed !! name))) as [Hin|Hnin];
      destruct (decide (name ∈ dom indexed)) as [Hd|Hd];
      try (by rewrite <- app_assoc).
    + by apply elem_of_dom in Hin.
    + by apply elem_of_dom in Hd.
Qed.

(** C10: after the host's content, one line per instruction of the group,
    the names in ascending order; a name the index holds is written as a
    [:clif:inst:] role and any other name as a literal. *)
Theorem add_content_spec (super_add_content : list string -> list string)
    (indexed : gmap string (string * string))
    (instructions : list instruction) (result : list string) :
  exists names : list string,
    names ≡ₚ map inst_name instructions
    /\ StronglySorted String.le names
    /\ length names = length instructions
    /\ add_content super_add_content indexed instructions result
       = super_add_content result ++
         map (fun name =>
                if decide (name ∈ dom indexed)
                then ":clif:inst:`" +:+ name +:+ "`"
                else "``" +:+ name +:+ "``")
             names.
Proof.
  exists (merge_sort String.le (map inst_name instructions)).
  split; [apply merge_sort_Permutation|].
  split; [apply StronglySorted_merge_sort; apply _|].
  split; [by rewrite merge_sort_Permutation, length_map|].
  unfold add_content. apply add_content_loop.
Qed.

(** ** The regular-expression fragment *)

(** The three patterns of the module are what their source text reads as. *)
Lemma compile_typevar : Re.compile typevar_source = Some typevar.
Proof. reflexivity. Qed.

Lemma compile_sep_equal : Re.compile sep_equal_source = Some sep_equal.
Proof. reflexivity. Qed.

Lemma compile_sep_comma : Re.compile sep_comma_source = Some sep_comma.
Proof. reflexivity. Qed.

Section SplitLoop.

Variable p : Re.pattern.
Variable maxsplit : nat.

Lemma split_loop_S (fuel n : nat) (pending s : string) :
  Re.split_loop (S fuel) p maxsplit n pending s
  = if negb (Nat.eqb maxsplit 0) && Nat.leb maxsplit n then [pending +:+ s]
    else
      let skip :=
        match s with
        | String c s' =>
            Re.split_loop fuel p maxsplit n (pending +:+ String c "") s'
        | EmptyString => [pending]
        end in
      match Re.match_prefix p s with
      | Some rest =>
          if Nat.ltb (String.length rest) (String.length s) then
            pending ::
              (if Re.capture p
               then [substring 0 (String.length s - String.length rest) s]
               else [])
              ++ Re.split_loop fuel p maxsplit (S n) "" rest
          else skip
      | None => skip
      end.
Proof. reflexivity. Qed.

(** Any fuel above the length of the text gives the same splits. *)
Lemma split_loop_fuel_eq (fuel1 fuel2 n : nat) (pending s : string) :
  String.length s < fuel1 -> String.length s < fuel2 ->
  Re.split_loop fuel1 p maxsplit n pending s
  = Re.split_loop fuel2 p maxsplit n pending s.
Proof.
  revert fuel2 n pending s.
  induction fuel1 as [|fuel1 IH]; intros fuel2 n pending s H1 H2; [lia|].
  destruct fuel2 as [|fuel2]; [lia|]. rewrite !split_loop_S. cbn zeta.
  destruct (negb (Nat.eqb maxsplit 0) && Nat.leb maxsplit n); [done|].
  assert (Hskip :
    match s with
    | String c s' =>
        Re.split_loop fuel1 p maxsplit n (pending +:+ String c "") s'
    | EmptyString => [pending]
    end
    = match s with
      | String c s' =>
          Re.split_loop fuel2 p maxsplit n (pending +:+ String c "") s'
      | EmptyString => [pending]
      end).
  { destruct s as [|c s']; [done|]. cbn in H1, H2. apply IH; lia. }
  destruct (Re.match_prefix p s) as [rest|]; [|done].
  destruct (Nat.ltb (String.length rest) (String.length s)) eqn:Hlt; [|done].
  apply Nat.ltb_lt in Hlt. do 2 f_equal. apply IH; lia.
Qed.

Lemma split_loop_fuel (fuel n : nat) (pending s : string) :
  String.length s < fuel ->
  Re.split_loop fuel p maxsplit n pending s
  = Re.split_from p maxsplit n pending s.
Proof. intros H. apply split_loop_fuel_eq; [done|lia]. Qed.

Lemma split_from_limit (n : nat) (pending s : string) :
  maxsplit <> 0 -> maxsplit <= n ->
  Re.split_from p maxsplit n pending s = [pending +:+ s].
Proof.
  intros H0 Hn. unfold Re.split_from. rewrite split_loop_S.
  apply Nat.eqb_neq in H0. apply Nat.leb_le in Hn. by rewrite H0, Hn.
Qed.

Lemma split_from_end (n : nat) (pending : string) :
  Re.split_from p maxsplit n pending "" = [pending].
Proof.
  unfold Re.split_from. rewrite split_loop_S, string_app_nil_r. cbn.
  destruct (negb (Nat.eqb maxsplit 0) && Nat.leb maxsplit n); [done|].
  by destruct (Re.match_prefix p "").
Qed.

Lemma below_limit_test (n : nat) :
  Re.below_limit maxsplit n -> negb (Nat.eqb maxsplit 0) && Nat.leb maxsplit n = false.
Proof.
  intros [->|Hn]; [done|].
  apply andb_false_iff. right. apply Nat.leb_gt. lia.
Qed.

Lemma split_from_skip (n : nat) (pending : string) (c : ascii) (s : string) :
  Re.below_limit maxsplit n ->
  Re.match_prefix p (String c s) = None ->
  Re.split_from p maxsplit n pending (String c s)
  = Re.split_from p maxsplit n (pending +:+ String c "") s.
Proof.
  intros Hlim Hm. unfold Re.split_from at 1.
  cbn [String.length]. rewrite split_loop_S, below_limit_test, Hm by done.
  reflexivity.
Qed.

Lemma split_from_match (n : nat) (pending s rest : string) :
  Re.below_limit maxsplit n ->
  Re.match_prefix p s = Some rest ->
  String.length rest < String.length s ->
  Re.split_from p maxsplit n pending s
  = pending ::
    (if Re.capture p
     then [substring 0 (String.length s - String.length rest) s] else [])
    ++ Re.split_from p maxsplit (S n) "" rest.
Proof.
  intros Hlim Hm Hlt. unfold Re.split_from at 1.
  rewrite split_loop_S, below_limit_test, Hm by done.
  apply Nat.ltb_lt in Hlt as Hlt'. rewrite Hlt'.
  by rewrite split_loop_fuel.
Qed.

End SplitLoop.

(** ** Whitespace and separators *)

Lemma all_space_cons (c : ascii) (w : string) :
  all_space (String c w) <-> Py.isspace c = true /\ all_space w.
Proof.
  unfold all_space. cbn [list_ascii_of_string].
  apply (Forall_cons (fun c => Py.isspace c = true)).
Qed.

Lemma all_space_nil : all_space "".
Proof. constructor. Qed.

Lemma lstrip_app_space (w s : string) :
  all_space w -> Py.lstrip (w +:+ s) = Py.lstrip s.
Proof.
  induction w as [|c w IH]; intros Hw; [done|].
  apply all_space_cons in Hw as [Hc Hw].
  rewrite string_app_cons. cbn [Py.lstrip]. rewrite Hc. by apply IH.
Qed.

Lemma lstrip_nonspace (c : ascii) (s : string) :
  Py.isspace c = false -> Py.lstrip (String c s) = String c s.
Proof. intros Hc. cbn. by rewrite Hc. Qed.

Lemma lstrip_length (s : string) :
  String.length (Py.lstrip s) <= String.length s.
Proof.
  induction s as [|c s IH]; cbn; [done|].
  destruct (Py.isspace c); cbn; lia.
Qed.

(** [\s*] before something that no whitespace starts: all the whitespace
    goes to the star. *)
Lemma match_star_space_skip (next : string -> option string) (s : string) :
  (forall c t, Py.isspace c = true -> next (String c t) = None) ->
  Re.match_star Re.CSpace next s = next (Py.lstrip s).
Proof.
  intros Hnext. induction s as [|c s IH]; [done|].
  cbn [Re.match_star Re.in_class Py.lstrip].
  destruct (Py.isspace c) eqn:Hc; [|done].
  rewrite IH. destruct (next (Py.lstrip s)); [done|]. by apply Hnext.
Qed.

(** [\s*] at the end of a pattern. *)
Lemma match_star_space_end (s : string) :
  Re.match_star Re.CSpace (fun t => Some t) s = Some (Py.lstrip s).
Proof.
  induction s as [|c s IH]; [done|].
  cbn [Re.match_star Re.in_class Py.lstrip].
  destruct (Py.isspace c); [by rewrite IH|done].
Qed.

Section Separator.

(** A pattern [\s*d\s*] for a character [d] that is not whitespace. *)
Variable d : ascii.
Hypothesis d_not_space : Py.isspace d = false.
Variable p : Re.pattern.
Hypothesis p_capture : Re.capture p = false.
Hypothesis p_items :
  Re.items p = [(Re.CSpace, Re.Star); (Re.CLit d, Re.One); (Re.CSpace, Re.Star)].

Variable maxsplit : nat.

Lemma match_separator (s : string) :
  Re.match_prefix p s
  = match Py.lstrip s with
    | String c t => if Ascii.eqb c d then Some (Py.lstrip t) else None
    | EmptyString => None
    end.
Proof.
  unfold Re.match_prefix. rewrite p_items. cbn [Re.match_items].
  rewrite match_star_space_skip.
  - destruct (Py.lstrip s) as [|c t]; [done|]. cbn [Re.in_class].
    destruct (Ascii.eqb c d); [|done]. apply match_star_space_end.
  - intros c t Hc. cbn [Re.in_class].
    destruct (Ascii.eqb_spec c d) as [->|]; [congruence|done].
Qed.

(** A match takes at least the character [d]. *)
Lemma match_separator_shorter (s rest : string) :
  Re.match_prefix p s = Some rest -> String.length rest < String.length s.
Proof.
  rewrite match_separator. pose proof (lstrip_length s) as Hs.
  destruct (Py.lstrip s) as [|c t]; [done|].
  destruct (Ascii.eqb c d); [|done]. intros [= <-].
  pose proof (lstrip_length t). cbn in Hs. lia.
Qed.

(** Whitespace, then a character that is neither whitespace nor [d]:
    nothing matches there, and the scan goes past it. *)
Lemma split_from_block (n : nat) (pending w : string) (c : ascii)
    (rest : string) :
  Re.below_limit maxsplit n ->
  all_space w -> Py.isspace c = false -> c <> d ->
  Re.split_from p maxsplit n pending (w +:+ String c rest)
  = Re.split_from p maxsplit n (pending +:+ w +:+ String c "") rest.
Proof.
  intros Hlim Hw Hc Hcd. revert pending.
  induction w as [|a w IH]; intros pending.
  - rewrite !string_app_nil_l. apply split_from_skip; [done|].
    rewrite match_separator, lstrip_nonspace by done.
    by apply Ascii.eqb_neq in Hcd as ->.
  - apply all_space_cons in Hw as [Ha Hw]. rewrite !string_app_cons.
    rewrite split_from_skip, IH, string_app_snoc; [done..|].
    rewrite match_separator. rewrite <- string_app_cons.
    rewrite lstrip_app_space, lstrip_nonspace by (done || by apply all_space_cons).
    by apply Ascii.eqb_neq in Hcd as ->.
Qed.

Lemma split_from_char (n : nat) (pending : string) (c : ascii) (rest : string) :
  Re.below_limit maxsplit n ->
  Py.isspace c = false -> c <> d ->
  Re.split_from p maxsplit n pending (String c rest)
  = Re.split_from p maxsplit n (pending +:+ String c "") rest.
Proof.
  intros Hlim Hc Hcd.
  by apply (split_from_block n pending "" c rest); [|apply all_space_nil|..].
Qed.

(** Text without whitespace and without [d] is scanned as it is. *)
Lemma split_from_plain (n : nat) (pending u rest : string) :
  Re.below_limit maxsplit n ->
  Forall (fun c => Py.isspace c = false /\ c <> d) (list_ascii_of_string u) ->
  Re.split_from p maxsplit n pending (u +:+ rest)
  = Re.split_from p maxsplit n (pending +:+ u) rest.
Proof.
  intros Hlim. revert pending. induction u as [|c u IH]; intros pending Hu.
  - by rewrite string_app_nil_l, string_app_nil_r.
  - cbn in Hu. apply Forall_cons in Hu as [[Hc Hcd] Hu].
    rewrite string_app_cons.
    rewrite split_from_char, IH by done. by rewrite string_app_snoc.
Qed.

(** At a separator the pending text is split off, and the scan goes on
    after the whitespace that follows [d]. *)
Lemma split_from_separator (n : nat) (pending w1 w2 rest : string) :
  Re.below_limit maxsplit n ->
  all_space w1 -> all_space w2 -> Py.lstrip rest = rest ->
  Re.split_from p maxsplit n pending (w1 +:+ String d (w2 +:+ rest))
  = pending :: Re.split_from p maxsplit (S n) "" rest.
Proof.
  intros Hlim Hw1 Hw2 Hrest.
  rewrite (split_from_match p maxsplit n pending _ rest); [by rewrite p_capture|done|..].
  - rewrite match_separator, lstrip_app_space, lstrip_nonspace by done.
    by rewrite Ascii.eqb_refl, lstrip_app_space, Hrest.
  - rewrite !string_length_app. cbn. rewrite string_length_app. lia.
Qed.

End Separator.

(** ** Instruction signatures *)

Lemma plain_cons (c : ascii) (p : string) :
  plain (String c p)
  <-> (Py.isspace c = false /\ c <> ","%char /\ c <> "="%char) /\ plain p.
Proof.
  unfold plain. cbn [list_ascii_of_string].
  apply (Forall_cons
    (fun c => Py.isspace c = false /\ c <> ","%char /\ c <> "="%char)).
Qed.

Lemma plain_not (d : ascii) (p : string) :
  d = ","%char \/ d = "="%char -> plain p ->
  Forall (fun c => Py.isspace c = false /\ c <> d) (list_ascii_of_string p).
Proof.
  intros Hd Hp. eapply Forall_impl; [exact Hp|].
  intros c (Hc & Hcomma & Heq). split; [done|]. by destruct Hd as [->| ->].
Qed.

Lemma loose_cons (c : ascii) (p : string) :
  loose (String c p)
  <-> (Py.isspace c = false /\ c <> ","%char) /\ loose p.
Proof.
  unfold loose. cbn [list_ascii_of_string].
  apply (Forall_cons (fun c => Py.isspace c = false /\ c <> ","%char)).
Qed.

Lemma plain_loose (p : string) : plain p -> loose p.
Proof.
  intros Hp. eapply Forall_impl; [exact Hp|]. by intros c (Hc & Hcomma & _).
Qed.

Lemma identifier_token (p : string) : identifier p -> token p.
Proof. intros [Hne Hp]. split; [done|by apply plain_loose]. Qed.

Lemma id_list_ok_tokens (l : id_list) : id_list_ok l -> token_list_ok l.
Proof.
  intros [Hp0 Hmore]. split; [by apply identifier_token|].
  eapply Forall_impl; [exact Hmore|].
  intros [[w1 w2] p] (Hw1 & Hw2 & Hp).
  split; [done|]. split; [done|]. by apply identifier_token.
Qed.

Lemma ins_ok_tokens (ins : option (string * id_list)) :
  ins_ok ins -> ins_tokens_ok ins.
Proof.
  destruct ins as [[w l]|]; [|done].
  intros (Hne & Hw & Hl).
  split; [done|]. split; [done|]. by apply id_list_ok_tokens.
Qed.

Lemma token_lstrip (p s : string) :
  token p -> Py.lstrip (p +:+ s) = p +:+ s.
Proof.
  intros [Hne Hp]. destruct p as [|c p]; [done|].
  apply loose_cons in Hp as [(Hc & _) _].
  rewrite string_app_cons. by apply lstrip_nonspace.
Qed.

Lemma identifier_lstrip (p s : string) :
  identifier p -> Py.lstrip (p +:+ s) = p +:+ s.
Proof. intros Hp. by apply token_lstrip, identifier_token. Qed.

(** The text after the first identifier of a list. *)
Lemma ids_text_cons (p0 w1 w2 p1 : string)
    (more : list (string * string * string)) :
  ids_text {| first_id := p0; more_ids := (w1, w2, p1) :: more |}
  = p0 +:+ w1 +:+ String "," (w2 +:+ ids_text {| first_id := p1; more_ids := more |}).
Proof. reflexivity. Qed.

(** [sep_comma.split] gives back the tokens of a list. *)
Lemma split_comma_ids (n : nat) (pending p0 : string)
    (more : list (string * string * string)) :
  loose p0 ->
  Forall (fun '(w1, w2, p) => all_space w1 /\ all_space w2 /\ token p) more ->
  Re.split_from sep_comma 0 n pending
    (ids_text {| first_id := p0; more_ids := more |})
  = (pending +:+ p0) :: map (fun x => x.2) more.
Proof.
  revert n pending p0.
  induction more as [|[[w1 w2] p1] more IH]; intros n pending p0 Hp0 Hmore.
  - unfold ids_text. cbn [first_id more_ids foldr map].
    rewrite (split_from_plain ","%char) by (done || by left).
    apply split_from_end.
  - apply Forall_cons in Hmore as [(Hw1 & Hw2 & Hp1) Hmore].
    rewrite ids_text_cons.
    rewrite (split_from_plain ","%char) by (done || by left).
    rewrite (split_from_separator ","%char); try done; try by left.
    + cbn [map]. f_equal. rewrite IH by (done || apply Hp1). done.
    + unfold ids_text. cbn [first_id more_ids]. by apply token_lstrip.
Qed.

Lemma ids_text_first_cons (c : ascii) (p : string)
    (more : list (string * string * string)) :
  ids_text {| first_id := String c p; more_ids := more |}
  = String c (ids_text {| first_id := p; more_ids := more |}).
Proof. reflexivity. Qed.

(** No [=] in a list of identifiers: [sep_equal.split] scans past it. *)
Lemma scan_ids_equal (maxsplit n : nat) (pending p0 : string)
    (more : list (string * string * string)) (tail : string) :
  Re.below_limit maxsplit n ->
  plain p0 ->
  Forall (fun '(w1, w2, p) => all_space w1 /\ all_space w2 /\ identifier p) more ->
  Re.split_from sep_equal maxsplit n pending
    (ids_text {| first_id := p0; more_ids := more |} +:+ tail)
  = Re.split_from sep_equal maxsplit n
      (pending +:+ ids_text {| first_id := p0; more_ids := more |}) tail.
Proof.
  intros Hlim. revert pending p0.
  induction more as [|[[w1 w2] p1] more IH]; intros pending p0 Hp0 Hmore.
  - unfold ids_text. cbn [first_id more_ids foldr]. rewrite string_app_nil_r.
    by apply (split_from_plain "="%char); [..|apply plain_not; [right|]].
  - apply Forall_cons in Hmore as [(Hw1 & Hw2 & [Hne Hp1]) Hmore].
    destruct p1 as [|c1 p1]; [done|].
    apply plain_cons in Hp1 as [(Hc1 & _ & Hc1eq) Hp1].
    rewrite ids_text_cons, ids_text_first_cons.
    rewrite !string_app_assoc, string_app_cons, string_app_assoc, string_app_cons.
    rewrite (split_from_plain "="%char) by (done || by apply plain_not; [right|]).
    rewrite (split_from_block "="%char) by done.
    rewrite (split_from_block "="%char) by done.
    rewrite IH by done. f_equal.
    rewrite !string_app_assoc, !string_app_cons, !string_app_nil_l. done.
Qed.

(** *** The split at the first [=] *)

Ltac limit := unfold Re.below_limit; lia.


Lemma id_list_eta (l : id_list) :
  l = {| first_id := first_id l; more_ids := more_ids l |}.
Proof. by destruct l. Qed.

Lemma split_equal_outs (outs : id_list) (w1 w2 rest : string) :
  id_list_ok outs -> all_space w1 -> all_space w2 ->
  Py.lstrip rest = rest ->
  Re.split sep_equal (written_outs (Some (outs, w1, w2)) +:+ rest) 1
  = [ids_text outs; rest].
Proof.
  intros [[_ Hp0] Hmore] Hw1 Hw2 Hrest. unfold Re.split, written_outs.
  rewrite !string_app_assoc, string_app_cons, string_app_nil_l.
  rewrite (id_list_eta outs).
  rewrite scan_ids_equal by (done || limit).
  rewrite (split_from_separator "="%char) by (done || limit).
  rewrite split_from_limit by lia. by rewrite !string_app_nil_l.
Qed.

Lemma split_equal_name (name : string) (ins : option (string * id_list)) :
  identifier name -> ins_ok ins ->
  Re.split sep_equal (name +:+ written_ins ins) 1 = [name +:+ written_ins ins].
Proof.
  intros [_ Hname] Hins. unfold Re.split.
  rewrite (split_from_plain "="%char)
    by (done || limit || by apply plain_not; [right|]).
  destruct ins as [[w [p0 more]]|]; cbn [written_ins].
  - destruct Hins as (_ & Hw & [[Hne Hp0] Hmore]). cbn [first_id more_ids] in *.
    destruct p0 as [|c p0]; [done|].
    apply plain_cons in Hp0 as [(Hc & _ & Hceq) Hp0].
    rewrite ids_text_first_cons.
    rewrite (split_from_block "="%char) by (done || limit).
    rewrite <- (string_app_nil_r (ids_text _)).
    rewrite scan_ids_equal by (done || limit).
    rewrite split_from_end. f_equal.
    rewrite !string_app_assoc, !string_app_cons, !string_app_nil_l.
    by rewrite string_app_nil_r.
  - rewrite split_from_end. by rewrite string_app_nil_r.
Qed.

(** *** Words *)

Lemma span_word_plain (name tail : string) :
  loose name ->
  match tail with String c _ => Py.isspace c = true | EmptyString => True end ->
  Py.span_word (name +:+ tail) = (name, tail).
Proof.
  intros Hname Htail. induction name as [|c name IH].
  - rewrite string_app_nil_l. destruct tail as [|c tail]; [done|].
    cbn. by rewrite Htail.
  - apply loose_cons in Hname as [(Hc & _) Hname].
    rewrite string_app_cons. cbn [Py.span_word]. by rewrite Hc, IH.
Qed.

Lemma split_whitespace_name (name : string) (ins : option (string * id_list)) :
  token name -> ins_tokens_ok ins ->
  Py.split_whitespace 1 (name +:+ written_ins ins)
  = name :: match ins with Some (_, l) => [ids_text l] | None => [] end.
Proof.
  intros Hname Hins. cbn [Py.split_whitespace].
  rewrite token_lstrip by done.
  destruct Hname as [Hne Hname].
  assert (Heqb : String.eqb (name +:+ written_ins ins) "" = false).
  { destruct name; [done|]. by rewrite string_app_cons. }
  rewrite Heqb, span_word_plain; [|done|].
  - f_equal. destruct ins as [[w l]|]; cbn [written_ins]; [|done].
    destruct Hins as (_ & Hw & [Hid Hmore]).
    rewrite lstrip_app_space by done. rewrite (id_list_eta l).
    unfold ids_text at 1 2. cbn [first_id more_ids].
    rewrite token_lstrip by done.
    destruct Hid as [Hne' _]. destruct (first_id l); [done|].
    by rewrite string_app_cons.
  - destruct ins as [[w l]|]; cbn [written_ins]; [|done].
    destruct Hins as (Hw0 & Hw & _). destruct w as [|c w]; [done|].
    rewrite string_app_cons. by apply all_space_cons in Hw as [? _].
Qed.

(** *** Nodes *)

Lemma signode_extend_nil (signode : desc_signature) :
  signode_extend signode [] = signode.
Proof. destruct signode. unfold signode_extend. cbn. by rewrite app_nil_r. Qed.

Lemma signode_add_extend (signode : desc_signature) (l : list node) (n : node) :
  signode_add (signode_extend signode l) n = signode_extend signode (l ++ [n]).
Proof. unfold signode_add, signode_extend. cbn. by rewrite app_assoc. Qed.

Lemma signode_extend_extend (signode : desc_signature) (l1 l2 : list node) :
  signode_extend (signode_extend signode l1) l2
  = signode_extend signode (l1 ++ l2).
Proof. unfold signode_extend. cbn. by rewrite app_assoc. Qed.

Lemma signode_add_one (signode : desc_signature) (n : node) :
  signode_add signode n = signode_extend signode [n].
Proof. reflexivity. Qed.

Lemma emphasized_cons (p : string) (ps : list string) :
  emphasized (p :: ps)
  = Emphasis p :: flat_map (fun q => [Text ", "; Emphasis q]) ps.
Proof.
  revert p. induction ps as [|q ps IH]; intros p; [done|].
  change (emphasized (p :: q :: ps))
    with (Emphasis p :: Text ", " :: emphasized (q :: ps)).
  by rewrite IH.
Qed.

(** The loop of [parse_params] after its first turn. *)
Lemma parse_params_loop (ps : list string) (signode : desc_signature) (i : nat) :
  i <> 0 ->
  (foldl parse_params_step (signode, i) ps).1
  = signode_extend signode (flat_map (fun q => [Text ", "; Emphasis q]) ps).
Proof.
  revert signode i. induction ps as [|p ps IH]; intros signode i Hi.
  - cbn. by rewrite signode_extend_nil.
  - cbn [foldl parse_params_step flat_map].
    apply Nat.eqb_neq in Hi as ->. cbn [negb].
    rewrite IH by done. rewrite !signode_add_one, !signode_extend_extend.
    done.
Qed.

Lemma parse_params_ids (l : id_list) (signode : desc_signature) :
  token_list_ok l ->
  parse_params (ids_text l) signode
  = signode_extend signode (emphasized (ids_of l)).
Proof.
  intros [[_ Hp0] Hmore]. unfold parse_params, Re.split.
  rewrite (id_list_eta l) at 1. rewrite split_comma_ids by done.
  rewrite string_app_nil_l. unfold ids_of. rewrite emphasized_cons.
  cbn [foldl parse_params_step Nat.eqb negb].
  rewrite parse_params_loop by done.
  by rewrite signode_add_one, signode_extend_extend.
Qed.

(** C3: a signature written [outs = name ins], with any whitespace around
    the commas and the [=] and between the name and the inputs, is cut at
    its first [=] and parsed into its name, the first word after it; it is
    rendered as the identifiers of [outs] in emphasis joined by [', '], the
    text [' = '], the name as a [desc_name], a space, and the identifiers of
    [ins] in emphasis joined by [', ']; without [outs] the rendering starts
    at the name, and without [ins] it ends there. *)
Theorem handle_signature_spec (sg : inst_signature) (signode : desc_signature) :
  signature_ok sg ->
  handle_signature (signature_text sg) signode
  = Py.Returns (sig_name sg, signode_extend signode (signature_nodes sg)).
Proof.
  destruct sg as [outs name ins]. unfold signature_ok, signature_text.
  cbn [sig_outs sig_name sig_ins].
  unfold handle_signature, signature_nodes. cbn [sig_outs sig_name sig_ins].
  destruct outs as [[[outs w1] w2]|].
  - intros (Houts & Hw1 & Hw2 & Hname & Hins).
    rewrite split_equal_outs by (done || by apply token_lstrip).
    cbn [length Nat.eqb Py.index lookup list_lookup mbind Py.outcome_bind
         mret Py.outcome_ret].
    rewrite split_whitespace_name by done.
    rewrite parse_params_ids by by apply id_list_ok_tokens.
    destruct ins as [[w ins]|];
      cbn [length Nat.eqb Py.index lookup list_lookup mbind Py.outcome_bind
           mret Py.outcome_ret].
    + destruct Hins as (_ & _ & Hins). rewrite parse_params_ids by done.
      rewrite !signode_add_extend, !signode_extend_extend.
      by rewrite <- !app_assoc.
    + rewrite !signode_add_extend. by rewrite <- !app_assoc.
  - intros (Hname & Hins).
    rewrite string_app_nil_l, split_equal_name by done.
    cbn [length Nat.eqb Py.index lookup list_lookup mbind Py.outcome_bind
         mret Py.outcome_ret].
    rewrite split_whitespace_name
      by (by apply identifier_token || by apply ins_ok_tokens).
    destruct ins as [[w ins]|];
      cbn [length Nat.eqb Py.index lookup list_lookup mbind Py.outcome_bind
           mret Py.outcome_ret].
    + destruct Hins as (_ & _ & Hins).
      rewrite parse_params_ids by by apply id_list_ok_tokens.
      by rewrite !signode_add_one, !signode_extend_extend.
    + by rewrite signode_add_one.
Qed.

(** ** Type signatures *)

Lemma match_typevar (s : string) :
  Re.match_prefix typevar s
  = match s with
    | String c (String x rest) =>
        if Ascii.eqb c "%" && Py.isupper x then Some rest else None
    | _ => None
    end.
Proof.
  destruct s as [|c [|x rest]]; cbn; [done| |].
  - by destruct (Ascii.eqb c "%").
  - destruct (Ascii.eqb c "%"); [|done]. unfold Py.isupper. cbn.
    by destruct (Nat.leb 65 (nat_of_ascii x) && Nat.leb (nat_of_ascii x) 90).
Qed.

(** A match takes two characters. *)
Lemma match_typevar_shorter (s rest : string) :
  Re.match_prefix typevar s = Some rest -> String.length rest < String.length s.
Proof.
  rewrite match_typevar. destruct s as [|c [|x t]]; [done..|].
  destruct (Ascii.eqb c "%" && Py.isupper x); [|done].
  intros [= <-]. cbn. lia.
Qed.

(** A pending text goes through the loop of [parse_type] as the grammar
    renders it, when it is not taken for a type variable. *)
Lemma parse_type_part_pending (acc : desc_signature * string) (pending : string) :
  Forall segment_clear (flush pending) ->
  parse_type_part acc pending = foldl render_segment acc (flush pending).
Proof.
  intros Hclear. destruct acc as [signode re_str].
  unfold parse_type_part, flush in *.
  destruct (String.eqb pending ""); [done|].
  apply Forall_cons in Hclear as [Hclear _]. cbn in Hclear.
  by rewrite Hclear.
Qed.

Lemma parse_type_part_typevar (acc : desc_signature * string) (x : ascii) :
  parse_type_part acc (String "%" (String x ""))
  = render_segment acc (Placeholder x).
Proof. by destruct acc. Qed.

Lemma parse_type_loop (s : string) :
  forall (n : nat) (pending : string) (acc : desc_signature * string),
    Forall segment_clear (type_segments pending s) ->
    foldl parse_type_part acc (Re.split_from typevar 0 n pending s)
    = foldl render_segment acc (type_segments pending s).
Proof.
  remember (String.length s) as k eqn:Hk. revert s Hk.
  induction k as [k IH] using lt_wf_ind.
  intros s Hk n pending acc Hclear.
  destruct s as [|c s'].
  - rewrite split_from_end. cbn [foldl type_segments] in *.
    by apply parse_type_part_pending.
  - destruct (Ascii.eqb c "%"
              && match s' with String x _ => Py.isupper x | _ => false end)
      eqn:Htv.
    + destruct s' as [|x rest]; [by rewrite andb_false_r in Htv|].
      cbn [type_segments] in *. rewrite Htv in *.
      apply andb_true_iff in Htv as Htv'. destruct Htv' as [Hc Hx].
      apply Ascii.eqb_eq in Hc as ->.
      apply Forall_app in Hclear as [Hpending Hclear].
      apply Forall_cons in Hclear as [_ Hclear].
      rewrite (split_from_match typevar 0 n pending _ rest);
        [|limit|by rewrite match_typevar, Htv|cbn; lia].
      cbn [Re.capture typevar app String.length].
      replace (S (S (String.length rest)) - String.length rest) with 2 by lia.
      cbn [substring foldl]. rewrite substring_0_0, foldl_app.
      rewrite (parse_type_part_pending acc pending) by done.
      rewrite parse_type_part_typevar.
      cbn [foldl]. eapply IH; [|reflexivity|done]. cbn in Hk. lia.
    + assert (Hseg : type_segments pending (String c s')
                     = type_segments (pending +:+ String c "") s').
      { destruct s' as [|x rest]; [done|]. cbn [type_segments]. by rewrite Htv. }
      rewrite Hseg in *.
      rewrite split_from_skip; [|limit|].
      * eapply IH; [|reflexivity|done]. cbn in Hk. lia.
      * rewrite match_typevar. destruct s' as [|x rest]; [done|]. by rewrite Htv.
Qed.

(** X25: Where no segment is taken for a type variable, [parse_type] renders
    each placeholder as the letter in emphasis with [\w+] in the pattern, and
    each other segment as a [desc_name] with its [re.escape] in the pattern. *)
Theorem parse_type_refines (name : string) (signode : desc_signature) :
  Forall segment_clear (type_segments "" name) ->
  parse_type name signode = parse_type_spec name signode.
Proof. intros Hclear. by apply parse_type_loop. Qed.

(** C1 fails on a segment of two characters that starts with [%]: it is
    rendered as a type variable, although no placeholder was found in it. *)
Lemma parse_type_percent_lowercase :
  Re.split typevar "%a" 0 = ["%a"]
  /\ type_segments "" "%a" = [Verbatim "%a"]
  /\ parse_type "%a" empty_signode
     = (signode_extend empty_signode [Emphasis "a"], "\w+")
  /\ parse_type_spec "%a" empty_signode
     = (signode_extend empty_signode [DescName "%a"], Re.escape "%a")
  /\ parse_type "%a" empty_signode <> parse_type_spec "%a" empty_signode.
Proof. by vm_compute. Qed.

(** ** The pattern of a type signature *)

(** A character without a meaning of its own ends the item before it and
    is read as itself. *)
Lemma not_special_char (a : ascii) :
  Re.isspecial a = false ->
  Ascii.eqb a ")" = false /\ Ascii.eqb a "(" = false
  /\ Ascii.eqb a "\" = false /\ Ascii.eqb a "[" = false
  /\ Ascii.eqb a "*" = false /\ Ascii.eqb a "+" = false
  /\ Ascii.eqb a "?" = false /\ Ascii.eqb a "{" = false.
Proof.
  destruct a as [[] [] [] [] [] [] [] []]; vm_compute; intros H;
    first [discriminate H | repeat split].
Qed.

(** [re.escape] leaves no character with a meaning of its own bare. *)
Lemma not_escaped_char (c : ascii) :
  Re.isescaped c = false -> Re.isspecial c = false.
Proof.
  destruct c as [[] [] [] [] [] [] [] []]; vm_compute; intros H;
    first [discriminate H | reflexivity].
Qed.

(** The characters [re.escape] puts a backslash before make no escape with
    a meaning of its own. *)
Lemma escaped_char (c : ascii) :
  Re.isescaped c = true ->
  Ascii.eqb c "w" = false /\ Ascii.eqb c "s" = false
  /\ Ascii.eqb c "0" = false /\ Py.isalnum c = false.
Proof.
  destruct c as [[] [] [] [] [] [] [] []]; vm_compute; intros H;
    first [discriminate H | repeat split].
Qed.

Lemma parse_items_S (fuel : nat) (s : string) :
  Re.parse_items (S fuel) s
  = match s with
    | EmptyString => Some ([], s)
    | String c _ =>
        if Ascii.eqb c ")" then Some ([], s)
        else
          '(cs, s1) ← Re.parse_atom s;
          '(q, s2) ← Re.parse_quant s1;
          '(its, rest) ← Re.parse_items fuel s2;
          Some ((cs, q) :: its, rest)
    end.
Proof. reflexivity. Qed.

Lemma parse_quant_one (s : string) :
  Re.item_start s -> Re.parse_quant s = Some (Re.One, s).
Proof.
  destruct s as [|a s]; [done|]. intros [Ha| ->]; [|done].
  apply not_special_char in Ha as (_ & _ & _ & _ & Hstar & Hplus & Hq & Hbrace).
  unfold Re.parse_quant. by rewrite Hstar, Hplus, Hq, Hbrace.
Qed.

Lemma parse_quant_plus (s : string) :
  Re.item_start s -> Re.parse_quant (String "+" s) = Some (Re.Plus, s).
Proof.
  destruct s as [|a s]; [done|]. intros [Ha| ->]; [|done].
  apply not_special_char in Ha as (_ & _ & _ & _ & Hstar & Hplus & Hq & Hbrace).
  unfold Re.parse_quant. cbn [Ascii.eqb Bool.eqb orb].
  by rewrite Hstar, Hplus, Hq, Hbrace.
Qed.

(** One escaped character is read back as that character. *)
Lemma parse_atom_escape_char (c : ascii) (s : string) :
  Re.parse_atom (Re.escape_char c +:+ s) = Some (Re.CLit c, s).
Proof.
  unfold Re.escape_char. destruct (Re.isescaped c) eqn:Hc.
  - rewrite !string_app_cons, string_app_nil_l.
    apply escaped_char in Hc as (Hw & Hs & H0 & Halnum).
    unfold Re.parse_atom, Re.parse_escape. cbn [Ascii.eqb Bool.eqb].
    by rewrite Hw, Hs, H0, Halnum.
  - apply not_escaped_char in Hc as Hsp.
    apply not_special_char in Hsp as Hc'. destruct Hc' as (_ & _ & Hb & Hbr & _).
    rewrite string_app_cons, string_app_nil_l. unfold Re.parse_atom.
    by rewrite Hb, Hbr, Hsp.
Qed.

Lemma escape_char_start (c : ascii) (s : string) :
  Re.item_start (Re.escape_char c +:+ s)
  /\ exists a t, Re.escape_char c +:+ s = String a t
       /\ Ascii.eqb a ")" = false /\ Ascii.eqb a "(" = false.
Proof.
  unfold Re.escape_char. destruct (Re.isescaped c) eqn:Hc.
  - rewrite string_app_cons. split; [by right|by eexists _, _].
  - apply not_escaped_char in Hc as Hsp. rewrite string_app_cons.
    split; [by left|]. eexists _, _. split; [done|].
    by apply not_special_char in Hsp as (? & ? & _).
Qed.

Lemma items_text_start (its : list (Re.charset * Re.quant)) :
  Forall Re.escaped_item its -> Re.item_start (Re.items_text its).
Proof.
  intros [|it its' [->|[c ->]] _]; cbn [Re.items_text foldr Re.item_text].
  - done.
  - by right.
  - apply escape_char_start.
Qed.

(** A pattern written from escaped items reads back as these items. *)
Lemma parse_items_escaped (its : list (Re.charset * Re.quant)) :
  Forall Re.escaped_item its ->
  forall fuel, length its < fuel ->
    Re.parse_items fuel (Re.items_text its) = Some (its, "").
Proof.
  induction 1 as [|it its Hit Hits IH]; intros fuel Hfuel.
  - destruct fuel; [lia|done].
  - destruct fuel as [|fuel]; [lia|]. cbn [length] in Hfuel.
    cbn [Re.items_text foldr]. fold (Re.items_text its).
    pose proof (items_text_start its Hits) as Hstart.
    destruct Hit as [->|[c ->]]; cbn [Re.item_text].
    + rewrite parse_items_S. rewrite !string_app_cons, string_app_nil_l.
      cbn [Ascii.eqb Bool.eqb andb]. unfold Re.parse_atom.
      cbn [Ascii.eqb Bool.eqb andb Re.parse_escape mbind option_bind].
      rewrite parse_quant_plus by done. cbn [mbind option_bind].
      rewrite IH by lia. done.
    + rewrite parse_items_S.
      destruct (escape_char_start c (Re.items_text its))
        as (_ & a & t & Heq & Ha & _).
      rewrite Heq at 1. rewrite Ha.
      rewrite parse_atom_escape_char. cbn [mbind option_bind].
      rewrite parse_quant_one by done. cbn [mbind option_bind].
      rewrite IH by lia. done.
Qed.

Lemma escape_char_length (c : ascii) : 0 < String.length (Re.escape_char c).
Proof.
  unfold Re.escape_char. destruct (Re.isescaped c); cbn; lia.
Qed.

Lemma items_text_length (its : list (Re.charset * Re.quant)) :
  Forall Re.escaped_item its ->
  length its <= String.length (Re.items_text its).
Proof.
  induction 1 as [|it its Hit Hits IH]; [done|].
  cbn [Re.items_text foldr length]. fold (Re.items_text its).
  rewrite string_length_app.
  destruct Hit as [->|[c ->]]; cbn [Re.item_text].
  - cbn. lia.
  - pose proof (escape_char_length c). lia.
Qed.

Lemma compile_escaped (its : list (Re.charset * Re.quant)) :
  Forall Re.escaped_item its ->
  Re.compile (Re.items_text its)
  = Some {| Re.capture := false; Re.items := its |}.
Proof.
  intros Hits. pose proof (items_text_length its Hits) as Hlen.
  pose proof (parse_items_escaped its Hits) as Hparse.
  destruct Hits as [|it its Hit Hits]; [done|].
  assert (Hopen : exists a t, Re.items_text (it :: its) = String a t
                              /\ Ascii.eqb a "(" = false).
  { cbn [Re.items_text foldr]. destruct Hit as [->|[c ->]]; cbn [Re.item_text].
    - by eexists _, _.
    - destruct (escape_char_start c (foldr (fun it acc => Re.item_text it +:+ acc) "" its))
        as (_ & a & t & Heq & _ & Ha).
      by eexists _, _. }
  destruct Hopen as (a & t & Heq & Ha). unfold Re.compile.
  rewrite Heq, Ha, <- Heq. rewrite Hparse by lia. done.
Qed.

(** *** What a pattern matches *)

Lemma match_star_next (cs : Re.charset) (next : string -> option string)
    (s : string) :
  is_Some (next s) -> is_Some (Re.match_star cs next s).
Proof.
  intros Hs. destruct s as [|c s]; [done|]. cbn [Re.match_star].
  destruct (Re.in_class cs c); [|done].
  by destruct (Re.match_star cs next s).
Qed.

Lemma match_star_some (cs : Re.charset) (next : string -> option string)
    (s : string) :
  is_Some (Re.match_star cs next s)
  <-> exists w s',
        Forall (fun c => Re.in_class cs c = true) (list_ascii_of_string w)
        /\ s = w +:+ s' /\ is_Some (next s').
Proof.
  split.
  - induction s as [|c s IH]; intros Hs.
    + exists "", "". by repeat split.
    + cbn [Re.match_star] in Hs. destruct (Re.in_class cs c) eqn:Hc.
      * destruct (Re.match_star cs next s) eqn:Hstar.
        -- destruct IH as (w & s' & Hw & -> & Hnext); [done|].
           exists (String c w), s'. repeat split; [|done].
           by apply Forall_cons.
        -- exists "", (String c s). by repeat split.
      * exists "", (String c s). by repeat split.
  - intros (w & s' & Hw & -> & Hnext). induction w as [|c w IH].
    + by apply match_star_next.
    + cbn in Hw. apply Forall_cons in Hw as [Hc Hw].
      rewrite string_app_cons. cbn [Re.match_star]. rewrite Hc.
      destruct (IH Hw) as [rest ->]. done.
Qed.

Lemma match_plus_word (r : list (Re.charset * Re.quant)) (s : string)
    (k : string -> bool) :
  is_Some (Re.match_items ((Re.CWord, Re.Plus) :: r) s k)
  <-> exists w s',
        word_text w /\ s = w +:+ s' /\ is_Some (Re.match_items r s' k).
Proof.
  cbn [Re.match_items]. split.
  - destruct s as [|c s]; [by intros [? ?]|].
    destruct (Re.in_class Re.CWord c) eqn:Hc; [|by intros [? ?]].
    intros (w & s' & Hw & -> & Hnext)%match_star_some.
    exists (String c w), s'. repeat split; [done| |done].
    by apply Forall_cons.
  - intros (w & s' & [Hne Hw] & -> & Hnext). destruct w as [|c w]; [done|].
    cbn in Hw. apply Forall_cons in Hw as [Hc Hw].
    rewrite string_app_cons. cbn [Re.in_class]. rewrite Hc.
    apply match_star_some. by exists w, s'.
Qed.

Lemma match_literals (text : string) (r : list (Re.charset * Re.quant))
    (s : string) (k : string -> bool) :
  is_Some (Re.match_items
             (map (fun c => (Re.CLit c, Re.One)) (list_ascii_of_string text) ++ r)
             s k)
  <-> exists s', s = text +:+ s' /\ is_Some (Re.match_items r s' k).
Proof.
  revert s. induction text as [|c text IH]; intros s.
  - cbn [list_ascii_of_string map app]. split; [by exists s|].
    by intros (s' & -> & Hs').
  - cbn [list_ascii_of_string map app Re.match_items Re.in_class]. split.
    + destruct s as [|a s]; [by intros [? ?]|].
      destruct (Ascii.eqb_spec a c) as [->|]; [|by intros [? ?]].
      intros (s' & -> & Hs')%IH. by exists s'.
    + intros (s' & -> & Hs'). rewrite string_app_cons, Ascii.eqb_refl.
      apply IH. by exists s'.
Qed.

Lemma match_segments (segs : list segment) (t : string) :
  is_Some (Re.match_items (flat_map segment_items segs) t
             (fun t => String.eqb t ""))
  <-> instance_of segs t.
Proof.
  revert t. induction segs as [|[x|text] segs IH]; intros t.
  - cbn [flat_map Re.match_items]. split.
    + destruct (String.eqb_spec t "") as [->|]; [constructor|by intros [? ?]].
    + by inversion 1.
  - cbn [flat_map segment_items app]. rewrite match_plus_word. split.
    + intros (w & s' & Hw & -> & Hs'%IH). by constructor.
    + inversion 1 as [|x' segs' w t' Hw Ht'|]; subst.
      exists w, t'. by rewrite IH.
  - cbn [flat_map segment_items]. rewrite match_literals. split.
    + intros (s' & -> & Hs'%IH). by constructor.
    + inversion 1 as [| |text' segs' t' Ht']; subst.
      exists t'. by rewrite IH.
Qed.

Lemma items_text_app (a b : list (Re.charset * Re.quant)) :
  Re.items_text (a ++ b) = Re.items_text a +:+ Re.items_text b.
Proof.
  induction a as [|it a IH]; [done|].
  cbn [app Re.items_text foldr]. fold (Re.items_text (a ++ b)).
  fold (Re.items_text a). by rewrite IH, string_app_assoc.
Qed.

Lemma escape_items_text (text : string) :
  Re.escape text
  = Re.items_text (map (fun c => (Re.CLit c, Re.One)) (list_ascii_of_string text)).
Proof.
  induction text as [|c text IH]; [done|].
  cbn [Re.escape list_ascii_of_string map Re.items_text foldr Re.item_text].
  by rewrite IH.
Qed.

Lemma segment_items_escaped (segs : list segment) :
  Forall Re.escaped_item (flat_map segment_items segs).
Proof.
  induction segs as [|[x|text] segs IH]; cbn [flat_map segment_items].
  - constructor.
  - apply Forall_app. split; [|done]. constructor; [by left|constructor].
  - apply Forall_app. split; [|done]. apply Forall_map, Forall_true.
    intros c. right. by exists c.
Qed.

(** The pattern string of the rendering is the text of the segments' items. *)
Lemma render_pattern (segs : list segment) (signode : desc_signature)
    (re_str : string) :
  (foldl render_segment (signode, re_str) segs).2
  = re_str +:+ Re.items_text (flat_map segment_items segs).
Proof.
  revert signode re_str.
  induction segs as [|[x|text] segs IH]; intros signode re_str.
  - cbn. by rewrite string_app_nil_r.
  - cbn [foldl render_segment flat_map segment_items]. rewrite IH.
    by rewrite items_text_app, string_app_assoc.
  - cbn [foldl render_segment flat_map segment_items]. rewrite IH.
    by rewrite items_text_app, string_app_assoc, escape_items_text.
Qed.

Lemma parse_type_pattern_clear (name : string) (signode : desc_signature) :
  Forall segment_clear (type_segments "" name) ->
  exists p : Re.pattern,
    Re.compile (parse_type name signode).2 = Some p
    /\ forall t : string, Re.fullmatch p t = true <-> type_instance name t.
Proof.
  intros Hclear. unfold parse_type, Re.split. rewrite parse_type_loop by done.
  rewrite render_pattern, string_app_nil_l.
  eexists. split; [apply compile_escaped, segment_items_escaped|].
  intros t. unfold Re.fullmatch, type_instance. cbn [Re.items].
  rewrite <- match_segments.
  destruct (Re.match_items _ t _); split; (done || by intros [? ?] || eauto).
Qed.

(** X26: Where no segment is taken for a type variable, the returned pattern
    string compiles, and the compiled pattern matches the whole of a string
    exactly when the string is the signature with each placeholder replaced
    by a non-empty sequence of word characters. *)
Theorem parse_type_pattern_matches (name : string) (signode : desc_signature) :
  Forall segment_clear (type_segments "" name) ->
  exists p : Re.pattern,
    Re.compile (parse_type name signode).2 = Some p
    /\ forall t : string, Re.fullmatch p t = true <-> type_instance name t.
Proof. apply parse_type_pattern_clear. Qed.

Lemma instance_of_flush (name t : string) :
  instance_of (flush name) t <-> t = name.
Proof.
  unfold flush. destruct (String.eqb_spec name "") as [->|Hne].
  - split; [by inversion 1|intros ->; constructor].
  - split.
    + inversion 1 as [| |text segs t' Ht']; subst. inversion Ht'; subst.
      apply string_app_nil_r.
    + intros ->. rewrite <- (string_app_nil_r name) at 2. repeat constructor.
Qed.

(** In particular, the pattern of a signature without placeholder matches
    the signature and nothing else. *)
Corollary parse_type_pattern_literal (name : string) (signode : desc_signature) :
  type_segments "" name = flush name ->
  looks_like_typevar name = false ->
  exists p : Re.pattern,
    Re.compile (parse_type name signode).2 = Some p
    /\ forall t : string, Re.fullmatch p t = true <-> t = name.
Proof.
  intros Hsegs Hname.
  destruct (parse_type_pattern_clear name signode) as (p & Hp & Hmatch).
  - rewrite Hsegs. unfold flush.
    destruct (String.eqb name ""); repeat constructor. done.
  - exists p. split; [done|]. intros t. rewrite Hmatch.
    unfold type_instance. rewrite Hsegs. apply instance_of_flush.
Qed.

(** C2 fails on the same input as C1: the pattern of [%a], a signature
    without placeholder, is [\w+], which does not match [%a] and matches
    every word. *)
Lemma parse_type_pattern_percent_lowercase :
  type_segments "" "%a" = [Verbatim "%a"]
  /\ (parse_type "%a" empty_signode).2 = "\w+"
  /\ Re.compile "\w+"
     = Some {| Re.capture := false; Re.items := [(Re.CWord, Re.Plus)] |}
  /\ Re.fullmatch
       {| Re.capture := false; Re.items := [(Re.CWord, Re.Plus)] |} "%a" = false
  /\ Re.fullmatch
       {| Re.capture := false; Re.items := [(Re.CWord, Re.Plus)] |} "b" = true
  /\ type_instance "%a" "%a"
  /\ ~ type_instance "%a" "b".
Proof.
  repeat split; try by vm_compute.
  - apply (instance_of_flush "%a"). done.
  - intros H. by apply (instance_of_flush "%a") in H.
Qed.

(** ** The theorems at concrete inputs *)

Lemma handle_signature_spec_witness :
  signature_ok example_signature
  /\ handle_signature "v0, v1 = inst op0, imm=1" empty_signode
     = Py.Returns
         ("inst",
          signode_extend empty_signode
            [Emphasis "v0"; Text ", "; Emphasis "v1"; Text " = ";
             DescName "inst"; Text " ";
             Emphasis "op0"; Text ", "; Emphasis "imm=1"]).
Proof.
  assert (Hok : signature_ok example_signature).
  { unfold signature_ok, id_list_ok, ins_tokens_ok, token_list_ok, identifier,
      token, plain, loose, all_space.
    cbn. repeat (split || constructor); done. }
  split; [exact Hok|].
  exact (handle_signature_spec example_signature empty_signode Hok).
Defined.

Lemma format_signature_spec_witness :
  format_signature call_inst = "rvals = call FN(args...)".
Proof.
  apply (format_signature_spec call_inst
           [{| op_name := "FN"; kind_name := "func_ref" |}]
           (Some {| op_name := "args"; kind_name := "variable_args" |})).
  - reflexivity.
  - repeat constructor.
  - intros v Hv. injection Hv as <-. reflexivity.
Defined.

Lemma add_target_and_index_duplicate_witness :
  let st' :=
    (add_target_and_index (fun docname => docname +:+ ".rst")
       (fun signode ids => list_to_set (sig_ids signode) ∪ ids)
       (H := ClifInst_index) example_directive "iadd" "iadd x, y"
       empty_signode described_before).2 in
  warnings st'
  = [("duplicate Cranelift object description of iadd, other instance in old.rst", 12)]
  /\ objects st' !! "iadd" = Some ("ir", "inst").
Proof.
  pose proof (add_target_and_index_duplicate
                (fun docname => docname +:+ ".rst")
                (fun signode ids => list_to_set (sig_ids signode) ∪ ids)
                (H := ClifInst_index) example_directive "iadd" "iadd x, y"
                empty_signode described_before "old" "inst") as Hdup.
  cbn zeta in *.
  destruct Hdup as (Hwarn & _ & Hobj).
  - cbn. apply not_elem_of_empty.
  - cbn. apply lookup_singleton_eq.
  - split; [exact Hwarn|exact Hobj].
Defined.

Lemma add_target_and_index_known_target_witness :
  let st' :=
    (add_target_and_index (fun docname => docname +:+ ".rst")
       (fun signode ids => list_to_set (sig_ids signode) ∪ ids)
       (H := ClifInst_index) example_directive "iadd" "iadd x, y"
       empty_signode target_known).2 in
  objects st' = {[ "iadd" := ("old", "inst") ]} /\ warnings st' = [].
Proof.
  pose proof (add_target_and_index_known_target
                (fun docname => docname +:+ ".rst")
                (fun signode ids => list_to_set (sig_ids signode) ∪ ids)
                (H := ClifInst_index) example_directive "iadd" "iadd x, y"
                empty_signode target_known) as Hknown.
  cbn zeta in *.
  destruct Hknown as (Hobj & Hwarn & _).
  - cbn. apply elem_of_singleton. reflexivity.
  - split; [exact Hobj|exact Hwarn].
Defined.

(** ** More on the objects index *)

Section IndexMore.

Variable doc2path : string -> string.
Variable note_explicit_target : desc_signature -> gset string -> gset string.
Variable role_for_objtype : string -> string.

Implicit Types (objs other : gmap string (string * string)).

(** X1: The first description of an object: its name was not in the index and
    its target is new to the document.  No warning is emitted, the entry is
    added, and the signature node receives the target as a name and an id. *)
Theorem add_target_and_index_fresh `{ClifObject} (self : directive)
    (name sig : string) (signode : desc_signature) (st : build_state) :
  objtype +:+ "-" +:+ name ∉ document_ids st ->
  objects st !! name = None ->
  let r := add_target_and_index doc2path note_explicit_target
             self name sig signode st in
  warnings r.2 = warnings st
  /\ objects r.2 = <[name := (env_docname self, objtype)]> (objects st)
  /\ sig_ids r.1 = sig_ids signode ++ [objtype +:+ "-" +:+ name]
  /\ sig_names r.1 = sig_names signode ++ [objtype +:+ "-" +:+ name]
  /\ children r.1 = children signode.
Proof.
  intros Hfresh Hnone. unfold add_target_and_index. cbn zeta.
  destruct (decide (objtype +:+ "-" +:+ name ∉ document_ids st)); [|done].
  rewrite Hnone. by destruct (decide (get_index_text name = "")).
Qed.

(** X2: Describing one object leaves the entry of every other name as it was. *)
Theorem add_target_and_index_other `{ClifObject} (self : directive)
    (name sig : string) (signode : desc_signature) (st : build_state)
    (other : string) :
  other <> name ->
  objects (add_target_and_index doc2path note_explicit_target
             self name sig signode st).2 !! other
  = objects st !! other.
Proof.
  intros Hne. unfold add_target_and_index. cbn zeta.
  destruct (decide (objtype +:+ "-" +:+ name ∉ document_ids st));
    destruct (decide (get_index_text name = "")); cbn; try done;
    by rewrite lookup_insert_ne.
Qed.

(** X3: No description removes a name from the index. *)
Theorem add_target_and_index_keeps `{ClifObject} (self : directive)
    (name sig : string) (signode : desc_signature) (st : build_state) :
  dom (objects st)
  ⊆ dom (objects (add_target_and_index doc2path note_explicit_target
                    self name sig signode st).2).
Proof.
  unfold add_target_and_index. cbn zeta.
  destruct (decide (objtype +:+ "-" +:+ name ∉ document_ids st));
    destruct (decide (get_index_text name = "")); cbn; try done;
    rewrite dom_insert; set_solver.
Qed.

(** X4: An object with an index text gets one index entry for its target,
    whether its target was known to the document or not. *)
Theorem add_target_and_index_entry `{ClifObject} (self : directive)
    (name sig : string) (signode : desc_signature) (st : build_state) :
  get_index_text name <> "" ->
  index_entries (add_target_and_index doc2path note_explicit_target
                   self name sig signode st).2
  = index_entries st
    ++ [("single", get_index_text name, objtype +:+ "-" +:+ name, "", None)].
Proof.
  intros Htext. unfold add_target_and_index. cbn zeta.
  destruct (decide (objtype +:+ "-" +:+ name ∉ document_ids st));
    by destruct (decide (get_index_text name = "")).
Qed.

(** X5: A reference to an object that was just described resolves to the
    document of the description, and its target id is the id the signature
    node received. *)
Theorem describe_then_resolve `{ClifObject} (self : directive)
    (name sig : string) (signode : desc_signature) (st : build_state)
    (fromdocname : string) (contnode : list node) :
  objtype +:+ "-" +:+ name ∉ document_ids st ->
  let r := add_target_and_index doc2path note_explicit_target
             self name sig signode st in
  exists ref : refnode,
    resolve_xref (objects r.2) fromdocname name contnode = Some ref
    /\ ref_todocname ref = env_docname self
    /\ sig_ids r.1 = sig_ids signode ++ [ref_targetid ref].
Proof.
  intros Hfresh. unfold add_target_and_index, resolve_xref. cbn zeta.
  destruct (decide (objtype +:+ "-" +:+ name ∉ document_ids st)); [|done].
  destruct (decide (get_index_text name = "")); cbn;
    rewrite lookup_insert_eq; by eexists.
Qed.

(** X6: Clearing the document of a description makes its name unresolved. *)
Theorem describe_then_clear `{ClifObject} (self : directive)
    (name sig : string) (signode : desc_signature) (st : build_state)
    (fromdocname : string) (contnode : list node) :
  objtype +:+ "-" +:+ name ∉ document_ids st ->
  resolve_xref
    (clear_doc (env_docname self)
       (objects (add_target_and_index doc2path note_explicit_target
                   self name sig signode st).2))
    fromdocname name contnode
  = None.
Proof.
  intros Hfresh. unfold resolve_xref. rewrite clear_doc_lookup.
  unfold add_target_and_index. cbn zeta.
  destruct (decide (objtype +:+ "-" +:+ name ∉ document_ids st)); [|done].
  destruct (decide (get_index_text name = "")); cbn;
    rewrite lookup_insert_eq; by destruct (decide (env_docname self = env_docname self)).
Qed.

(** X7: After [clear_doc] no reference leads into the cleared document, and a
    reference that still resolves is the one that resolved before. *)
Theorem clear_doc_no_reference (docname : string) objs
    (fromdocname target : string) (contnode : list node) (ref : refnode) :
  resolve_xref (clear_doc docname objs) fromdocname target contnode = Some ref ->
  ref_todocname ref <> docname
  /\ resolve_xref objs fromdocname target contnode = Some ref.
Proof.
  unfold resolve_xref. rewrite clear_doc_lookup.
  destruct (objs !! target) as [[fn ty]|]; [|done].
  destruct (decide (fn = docname)); [done|].
  intros [= <-]. done.
Qed.

(** X8: Documents can be cleared in any order. *)
Theorem clear_doc_comm (d1 d2 : string) objs :
  clear_doc d1 (clear_doc d2 objs) = clear_doc d2 (clear_doc d1 objs).
Proof.
  apply map_eq. intros k. rewrite !clear_doc_lookup.
  destruct (objs !! k) as [[fn ty]|]; [|done].
  repeat (case_decide; cbn; try rewrite clear_doc_lookup); congruence.
Qed.

(** X9: Merging nothing changes nothing: no document names, or an empty index
    to merge from. *)
Theorem merge_domaindata_nothing (docnames : gset string) other objs :
  merge_domaindata ∅ other objs = objs
  /\ merge_domaindata docnames ∅ objs = objs.
Proof.
  split; apply map_eq; intros k; rewrite merge_domaindata_lookup.
  - destruct (other !! k) as [[fn ty]|]; [|done].
    destruct (decide (fn ∈ (∅ : gset string))); [set_solver|done].
  - by rewrite lookup_empty.
Qed.

(** X10: Merging the same data a second time changes nothing. *)
Theorem merge_domaindata_idem (docnames : gset string) other objs :
  merge_domaindata docnames other (merge_domaindata docnames other objs)
  = merge_domaindata docnames other objs.
Proof.
  apply map_eq. intros k. rewrite !merge_domaindata_lookup.
  destruct (other !! k) as [[fn ty]|]; [|done].
  by destruct (decide (fn ∈ docnames)).
Qed.

(** X11: A merge removes no name, and adds only names of the other index. *)
Theorem merge_domaindata_dom (docnames : gset string) other objs :
  dom objs ⊆ dom (merge_domaindata docnames other objs)
  /\ dom (merge_domaindata docnames other objs) ⊆ dom objs ∪ dom other.
Proof.
  split; intros k; rewrite ?elem_of_union, !elem_of_dom,
    merge_domaindata_lookup.
  - destruct (other !! k) as [[fn ty]|]; [|done].
    by destruct (decide (fn ∈ docnames)).
  - destruct (other !! k) as [[fn ty]|]; [|by left].
    by right.
Qed.

(** X12: After a merge, a name the other index defines in one of the merged
    documents resolves to that definition. *)
Theorem merge_then_resolve (docnames : gset string) other objs
    (fromdocname target : string) (contnode : list node)
    (docname objtype : string) :
  other !! target = Some (docname, objtype) ->
  docname ∈ docnames ->
  resolve_xref (merge_domaindata docnames other objs)
    fromdocname target contnode
  = Some (make_refnode fromdocname docname (objtype +:+ "-" +:+ target)
            contnode target).
Proof.
  intros Hother Hin. unfold resolve_xref.
  rewrite merge_domaindata_lookup, Hother.
  by destruct (decide (docname ∈ docnames)).
Qed.

End IndexMore.

(** ** More on instruction signatures *)

(** A split always has a first part. *)
Lemma split_loop_first (p : Re.pattern) (maxsplit fuel n : nat)
    (pending s : string) :
  exists part parts,
    Re.split_loop fuel p maxsplit n pending s = part :: parts.
Proof.
  revert n pending s. induction fuel as [|fuel IH]; intros n pending s.
  - by eexists _, _.
  - rewrite split_loop_S. cbn zeta.
    destruct (negb (Nat.eqb maxsplit 0) && Nat.leb maxsplit n);
      [by eexists _, _|].
    assert (Hskip : exists part parts,
      match s with
      | String c s' =>
          Re.split_loop fuel p maxsplit n (pending +:+ String c "") s'
      | EmptyString => [pending]
      end = part :: parts).
    { destruct s; [by eexists _, _|apply IH]. }
    destruct (Re.match_prefix p s); [|done].
    destruct (Nat.ltb _ _); [by eexists _, _|done].
Qed.

(** A pattern without group splits into at most [maxsplit] parts more than
    one. *)
Lemma split_loop_length (p : Re.pattern) (maxsplit fuel n : nat)
    (pending s : string) :
  Re.capture p = false -> maxsplit <> 0 -> n <= maxsplit ->
  length (Re.split_loop fuel p maxsplit n pending s) <= S (maxsplit - n).
Proof.
  intros Hcap Hmax. revert n pending s.
  induction fuel as [|fuel IH]; intros n pending s Hn; [cbn; lia|].
  rewrite split_loop_S. cbn zeta.
  destruct (negb (Nat.eqb maxsplit 0) && Nat.leb maxsplit n) eqn:Hlim;
    [cbn; lia|].
  assert (Hn' : n < maxsplit).
  { apply andb_false_iff in Hlim as [Hz|Hle].
    - apply negb_false_iff, Nat.eqb_eq in Hz. lia.
    - apply Nat.leb_gt in Hle. lia. }
  assert (Hskip : length
      match s with
      | String c s' =>
          Re.split_loop fuel p maxsplit n (pending +:+ String c "") s'
      | EmptyString => [pending]
      end <= S (maxsplit - n)).
  { destruct s; [cbn; lia|by apply IH]. }
  destruct (Re.match_prefix p s) as [rest|]; [|done].
  destruct (Nat.ltb _ _); [|done].
  rewrite Hcap. cbn [app length].
  specialize (IH (S n) "" rest). lia.
Qed.

(** [re.split(sep_equal, sig, 1)] has one part or two. *)
Lemma split_equal_parts (sig : string) :
  (exists a, Re.split sep_equal sig 1 = [a])
  \/ (exists a b, Re.split sep_equal sig 1 = [a; b]).
Proof.
  unfold Re.split, Re.split_from.
  destruct (split_loop_first sep_equal 1 (S (String.length sig)) 0 "" sig)
    as (a & parts & Heq).
  pose proof (split_loop_length sep_equal 1 (S (String.length sig)) 0 "" sig
                eq_refl) as Hlen.
  rewrite Heq in *. cbn in Hlen.
  destruct parts as [|b [|c parts]]; [left|right|cbn in Hlen; lia]; eauto.
Qed.

(** [parse_params] on any text: the parts between the commas in emphasis,
    with [', '] between them. *)
Lemma parse_params_split (s : string) (signode : desc_signature) :
  parse_params s signode
  = signode_extend signode (emphasized (Re.split sep_comma s 0)).
Proof.
  unfold parse_params, Re.split, Re.split_from.
  destruct (split_loop_first sep_comma 0 (S (String.length s)) 0 "" s)
    as (a & parts & ->).
  rewrite emphasized_cons. cbn [foldl parse_params_step Nat.eqb negb].
  rewrite parse_params_loop by done.
  by rewrite signode_add_one, signode_extend_extend.
Qed.

(** *** Words *)

Lemma span_word_first (c : ascii) (t : string) :
  Py.isspace c = false ->
  (Py.span_word (String c t)).1 <> ""
  /\ Forall (fun a => Py.isspace a = false)
            (list_ascii_of_string (Py.span_word (String c t)).1).
Proof.
  intros Hc. cbn [Py.span_word]. rewrite Hc.
  destruct (Py.span_word t) as [w rest] eqn:Hspan. cbn. split; [done|].
  constructor; [done|]. clear c Hc. revert w rest Hspan.
  induction t as [|a t IH]; intros w rest Hspan.
  - injection Hspan as <- _. constructor.
  - cbn in Hspan. destruct (Py.isspace a) eqn:Ha.
    + injection Hspan as <- _. constructor.
    + destruct (Py.span_word t) as [w' rest'] eqn:Ht.
      injection Hspan as <- _. cbn. constructor; [done|]. by eapply IH.
Qed.

Lemma lstrip_first (s : string) :
  Py.lstrip s = ""
  \/ exists c t, Py.lstrip s = String c t /\ Py.isspace c = false.
Proof.
  induction s as [|c s IH]; [by left|]. cbn.
  destruct (Py.isspace c) eqn:Hc; [done|]. right. by exists c, s.
Qed.

(** [text.split(None, 1)]: nothing for a blank text, and otherwise a first
    word, which is not empty and has no whitespace, and at most one more
    part. *)
Lemma split_whitespace_words (text : string) :
  (Py.lstrip text = "" /\ Py.split_whitespace 1 text = [])
  \/ (exists w more,
        Py.lstrip text <> ""
        /\ Py.split_whitespace 1 text = w :: more
        /\ w <> ""
        /\ Forall (fun a => Py.isspace a = false) (list_ascii_of_string w)
        /\ length more <= 1).
Proof.
  cbn [Py.split_whitespace].
  destruct (lstrip_first text) as [->|(c & t & -> & Hc)]; [by left|].
  right. cbn [String.eqb].
  destruct (span_word_first c t Hc) as [Hne Hw].
  destruct (Py.span_word (String c t)) as [w rest].
  eexists w, _. repeat split; try done.
  destruct (String.eqb (Py.lstrip rest) ""); cbn; lia.
Qed.

(** X13: When [ClifInst.handle_signature] returns, the name is not empty and has
    no whitespace in it, and the signature node has only gained children. *)
Theorem handle_signature_name (sig : string) (signode signode' : desc_signature)
    (name : string) :
  handle_signature sig signode = Py.Returns (name, signode') ->
  name <> ""
  /\ Forall (fun a => Py.isspace a = false) (list_ascii_of_string name)
  /\ exists nodes, signode' = signode_extend signode nodes.
Proof.
  unfold handle_signature.
  destruct (split_equal_parts sig) as [(a & ->)|(a & b & ->)];
    cbn [length Nat.eqb Py.index lookup list_lookup mbind Py.outcome_bind
         mret Py.outcome_ret].
  - destruct (split_whitespace_words a)
      as [[_ ->]|(w & more & _ & -> & Hne & Hw & Hlen)]; [done|].
    destruct more as [|ins [|? more]]; [| |cbn in Hlen; lia];
      cbn [length Nat.eqb Py.index lookup list_lookup mbind Py.outcome_bind
           mret Py.outcome_ret]; intros [= <- <-]; repeat split; try done.
    + by exists [DescName w].
    + rewrite parse_params_split, !signode_add_one, !signode_extend_extend.
      by eexists.
  - destruct (split_whitespace_words b)
      as [[_ ->]|(w & more & _ & -> & Hne & Hw & Hlen)]; [done|].
    rewrite parse_params_split.
    destruct more as [|ins [|? more]]; [| |cbn in Hlen; lia];
      cbn [length Nat.eqb Py.index lookup list_lookup mbind Py.outcome_bind
           mret Py.outcome_ret]; intros [= <- <-]; repeat split; try done.
    + rewrite !signode_add_extend. by eexists.
    + rewrite parse_params_split, !signode_add_extend, !signode_extend_extend.
      by eexists.
Qed.

(** X14: [ClifInst.handle_signature] raises [IndexError] exactly when the text
    after the first [=], or the whole signature when it has no [=], is empty
    or only whitespace. *)
Theorem handle_signature_raises (sig : string) (signode : desc_signature) :
  handle_signature sig signode = Py.IndexError
  <-> Py.lstrip (List.last (Re.split sep_equal sig 1) "") = "".
Proof.
  unfold handle_signature.
  destruct (split_equal_parts sig) as [(a & ->)|(a & b & ->)];
    cbn [length Nat.eqb Py.index lookup list_lookup mbind Py.outcome_bind
         mret Py.outcome_ret List.last].
  - destruct (split_whitespace_words a)
      as [[Hblank ->]|(w & more & Hne & -> & _ & _ & Hlen)]; [done|].
    destruct more as [|ins [|? more]]; [| |cbn in Hlen; lia]; done.
  - destruct (split_whitespace_words b)
      as [[Hblank ->]|(w & more & Hne & -> & _ & _ & Hlen)]; [done|].
    destruct more as [|ins [|? more]]; [| |cbn in Hlen; lia]; done.
Qed.

(** Whitespace alone holds no [=]: the split leaves it whole. *)
Lemma split_equal_blank (n : nat) (pending w : string) :
  all_space w ->
  Re.split_from sep_equal 1 n pending w = [pending +:+ w].
Proof.
  intros Hw. destruct (Nat.le_gt_cases 1 n) as [Hn|Hn];
    [by apply split_from_limit|].
  revert pending. induction w as [|a w IH]; intros pending.
  - by rewrite split_from_end, string_app_nil_r.
  - apply all_space_cons in Hw as Hw'. destruct Hw' as [Ha Hw'].
    rewrite split_from_skip, IH, string_app_snoc; [done..|limit|].
    rewrite (match_separator "="%char) by done.
    rewrite <- (string_app_nil_r (String a w)).
    by rewrite lstrip_app_space.
Qed.

(** X15: A blank signature has no name: [IndexError]. *)
Theorem handle_signature_blank (sig : string) (signode : desc_signature) :
  all_space sig -> handle_signature sig signode = Py.IndexError.
Proof.
  intros Hsig. unfold handle_signature, Re.split.
  rewrite split_equal_blank, string_app_nil_l by done.
  cbn [length Nat.eqb Py.index lookup list_lookup mbind Py.outcome_bind
       mret Py.outcome_ret Py.split_whitespace].
  rewrite <- (string_app_nil_r sig), lstrip_app_space by done.
  done.
Qed.

(** X16: A signature that ends after its [=] has no name: [IndexError]. *)
Theorem handle_signature_outs_only (outs : id_list) (w1 w2 : string)
    (signode : desc_signature) :
  id_list_ok outs -> all_space w1 -> all_space w2 ->
  handle_signature (written_outs (Some (outs, w1, w2))) signode
  = Py.IndexError.
Proof.
  intros Houts Hw1 Hw2. unfold handle_signature.
  rewrite <- (string_app_nil_r (written_outs _)).
  rewrite split_equal_outs by done.
  reflexivity.
Qed.

(** ** Formatted signatures *)

Lemma shown_from_cons (cur : string) (rest : list operand) :
  exists item items, shown_from cur rest = item :: items.
Proof.
  revert cur. induction rest as [|op rest IH]; intros cur; cbn.
  - by eexists _, _.
  - destruct (variadic op); [apply IH|by eexists _, _].
Qed.

Lemma join_cons_cons (sep x y : string) (l : list string) :
  Py.join sep (x :: y :: l) = x +:+ sep +:+ Py.join sep (y :: l).
Proof. reflexivity. Qed.

(** The loop over [inst.ins[1:]], from the item it is at. *)
Lemma fold_shown (sig cur : string) (rest : list operand) :
  foldl input_step (sig +:+ cur) rest
  = sig +:+ Py.join ", " (shown_from cur rest).
Proof.
  revert sig cur. induction rest as [|op rest IH]; intros sig cur; [done|].
  cbn [foldl shown_from]. unfold input_step at 2.
  destruct (variadic op).
  - rewrite string_app_assoc. apply IH.
  - destruct (shown_from_cons (op_name op) rest) as (item & items & Heq).
    rewrite Heq, join_cons_cons, <- Heq.
    replace ((sig +:+ cur) +:+ ", " +:+ op_name op)
      with ((sig +:+ cur +:+ ", ") +:+ op_name op)
      by (by rewrite !string_app_assoc).
    rewrite IH. by rewrite !string_app_assoc.
Qed.

Lemma format_signature_shown (inst : instruction) :
  format_signature inst
  = outs_text inst +:+ inst_name inst +:+
    match shown_inputs (inst_ins inst) with
    | [] => ""
    | items => " " +:+ Py.join ", " items
    end.
Proof.
  unfold format_signature, outs_text.
  set (sig0 := if Nat.ltb 0 (length (inst_outs inst)) then _ else _).
  assert (Hsig0 : sig0 = match inst_outs inst with
                         | [] => ""
                         | outs => Py.join ", " (map op_name outs) +:+ " = "
                         end +:+ inst_name inst).
  { subst sig0. destruct (inst_outs inst); cbn [length Nat.ltb Nat.leb];
      [done|by rewrite string_app_assoc]. }
  rewrite Hsig0. clear sig0 Hsig0.
  destruct (inst_ins inst) as [|op rest]; cbn [length Nat.ltb Nat.leb].
  - by rewrite !string_app_nil_r.
  - unfold shown_inputs.
    set (cur := if variadic op then op_name op +:+ "..." else op_name op).
    destruct (shown_from_cons cur rest) as (item & items & Heq).
    rewrite Heq, <- Heq.
    set (sig0 := match inst_outs inst with [] => "" | _ => _ end
                 +:+ inst_name inst).
    assert (Hcur : (if variadic op
                    then (sig0 +:+ " " +:+ op_name op) +:+ "..."
                    else sig0 +:+ " " +:+ op_name op)
                   = (sig0 +:+ " ") +:+ cur).
    { subst cur. destruct (variadic op); by rewrite !string_app_assoc. }
    rewrite Hcur, fold_shown. subst sig0. by rewrite !string_app_assoc.
Qed.

(** X17: [format_signature] for any list of inputs: the outputs and [' = '], the
    name, and the inputs as items joined by [', '], where an input that is
    not variadic is an item and a variadic input is attached to the item
    before it as [(name...)], or is the item [name...] when it is the first
    input. *)
Theorem format_signature_items (inst : instruction) :
  format_signature inst
  = outs_text inst +:+ inst_name inst +:+
    match shown_inputs (inst_ins inst) with
    | [] => ""
    | items => " " +:+ Py.join ", " items
    end.
Proof. apply format_signature_shown. Qed.

(** *** The directive reads what the documenter writes *)

Lemma plain_app (a b : string) : plain a -> plain b -> plain (a +:+ b).
Proof.
  intros Ha Hb. induction a as [|c a IH]; [done|].
  apply plain_cons in Ha as [Hc Ha]. rewrite string_app_cons.
  apply plain_cons. split; [done|by apply IH].
Qed.

Lemma identifier_app (a b : string) :
  identifier a -> plain b -> identifier (a +:+ b).
Proof.
  intros [Hne Ha] Hb. split; [|by apply plain_app].
  destruct a; [done|]. by rewrite string_app_cons.
Qed.

Lemma plain_dots : plain "...".
Proof. unfold plain. cbn. repeat constructor; done. Qed.

Lemma plain_open : plain "(".
Proof. unfold plain. cbn. repeat constructor; done. Qed.

Lemma plain_close : plain "...)".
Proof. unfold plain. cbn. repeat constructor; done. Qed.

Lemma shown_from_identifiers (cur : string) (rest : list operand) :
  identifier cur ->
  Forall (fun op => identifier (op_name op)) rest ->
  Forall identifier (shown_from cur rest).
Proof.
  intros Hcur Hrest. revert cur Hcur.
  induction Hrest as [|op rest Hop Hrest IH]; intros cur Hcur; cbn.
  - by constructor.
  - destruct (variadic op).
    + apply IH. apply identifier_app; [done|].
      apply plain_app; [apply plain_open|].
      apply plain_app; [apply Hop|apply plain_close].
    + constructor; [done|by apply IH].
Qed.

Lemma shown_inputs_identifiers (ins : list operand) :
  Forall (fun op => identifier (op_name op)) ins ->
  Forall identifier (shown_inputs ins).
Proof.
  intros [|op rest Hop Hrest]; [constructor|]. cbn.
  apply shown_from_identifiers; [|done].
  destruct (variadic op); [|done]. apply identifier_app; [done|apply plain_dots].
Qed.

Lemma comma_space_ok (p0 : string) (ps : list string) :
  Forall identifier (p0 :: ps) -> id_list_ok (comma_space p0 ps).
Proof.
  intros [Hp0 Hps]%Forall_cons. split; [done|]. cbn.
  apply Forall_map. eapply Forall_impl; [exact Hps|].
  intros p Hp. cbn. repeat split; (apply all_space_nil || apply Hp || idtac).
  apply all_space_cons. split; [done|apply all_space_nil].
Qed.

Lemma comma_space_ids (p0 : string) (ps : list string) :
  ids_of (comma_space p0 ps) = p0 :: ps.
Proof.
  unfold ids_of, comma_space. cbn. f_equal.
  rewrite map_map. cbn. apply map_id.
Qed.

Lemma comma_space_text (p0 : string) (ps : list string) :
  ids_text (comma_space p0 ps) = Py.join ", " (p0 :: ps).
Proof.
  rewrite join_cons. unfold ids_text, comma_space. cbn [first_id more_ids].
  f_equal. induction ps as [|p ps IH]; [done|].
  cbn [map foldr]. rewrite IH.
  by rewrite !string_app_nil_l, !string_app_cons, !string_app_nil_l.
Qed.

(** What [format_signature] writes is the written form of [formatted]. *)
Lemma format_signature_text (inst : instruction) :
  format_signature inst = signature_text (formatted inst).
Proof.
  rewrite format_signature_shown.
  unfold signature_text, formatted, outs_text.
  cbn [sig_outs sig_name sig_ins]. f_equal; [|f_equal].
  - destruct (inst_outs inst) as [|o outs]; [done|]. cbn [map written_outs].
    rewrite comma_space_text.
    by rewrite !string_app_cons, !string_app_nil_l.
  - destruct (shown_inputs (inst_ins inst)) as [|p0 ps]; [done|].
    cbn [written_ins]. by rewrite comma_space_text.
Qed.

(** The parse of a written signature. *)
Lemma handle_signature_written (outs : option (id_list * string * string))
    (name : string) (ins : option (string * id_list))
    (signode : desc_signature) :
  signature_ok {| sig_outs := outs; sig_name := name; sig_ins := ins |} ->
  handle_signature (written_outs outs +:+ name +:+ written_ins ins) signode
  = Py.Returns
      (name,
       signode_extend signode
         (signature_nodes
            {| sig_outs := outs; sig_name := name; sig_ins := ins |})).
Proof.
  unfold signature_ok. cbn [sig_outs sig_name sig_ins].
  unfold handle_signature, signature_nodes. cbn [sig_outs sig_name sig_ins].
  destruct outs as [[[outs w1] w2]|].
  - intros (Houts & Hw1 & Hw2 & Hname & Hins).
    rewrite split_equal_outs by (done || by apply token_lstrip).
    cbn [length Nat.eqb Py.index lookup list_lookup mbind Py.outcome_bind
         mret Py.outcome_ret].
    rewrite split_whitespace_name by done.
    rewrite parse_params_ids by by apply id_list_ok_tokens.
    destruct ins as [[w ins]|];
      cbn [length Nat.eqb Py.index lookup list_lookup mbind Py.outcome_bind
           mret Py.outcome_ret].
    + destruct Hins as (_ & _ & Hins). rewrite parse_params_ids by done.
      rewrite !signode_add_extend, !signode_extend_extend.
      by rewrite <- !app_assoc.
    + rewrite !signode_add_extend. by rewrite <- !app_assoc.
  - intros (Hname & Hins).
    rewrite string_app_nil_l, split_equal_name by done.
    cbn [length Nat.eqb Py.index lookup list_lookup mbind Py.outcome_bind
         mret Py.outcome_ret].
    rewrite split_whitespace_name
      by (by apply identifier_token || by apply ins_ok_tokens).
    destruct ins as [[w ins]|];
      cbn [length Nat.eqb Py.index lookup list_lookup mbind Py.outcome_bind
           mret Py.outcome_ret].
    + destruct Hins as (_ & _ & Hins).
      rewrite parse_params_ids by by apply id_list_ok_tokens.
      by rewrite !signode_add_one, !signode_extend_extend.
    + by rewrite signode_add_one.
Qed.

(** X18: The signature [InstDocumenter.format_signature] writes is read back by
    [ClifInst.handle_signature]: it returns the name of the instruction and
    renders the names of the outputs, then the name, then the items of the
    inputs, when the names are identifiers. *)
Theorem format_then_handle_signature (inst : instruction)
    (signode : desc_signature) :
  identifier (inst_name inst) ->
  Forall (fun op => identifier (op_name op)) (inst_outs inst) ->
  Forall (fun op => identifier (op_name op)) (inst_ins inst) ->
  handle_signature (format_signature inst) signode
  = Py.Returns
      (inst_name inst,
       signode_extend signode
         (match inst_outs inst with
          | [] => []
          | outs => emphasized (map op_name outs) ++ [Text " = "]
          end
          ++ [DescName (inst_name inst)]
          ++ match inst_ins inst with
             | [] => []
             | ins => Text " " :: emphasized (shown_inputs ins)
             end)).
Proof.
  intros Hname Houts Hins. rewrite format_signature_text.
  unfold signature_text, formatted. cbn [sig_outs sig_name sig_ins].
  apply shown_inputs_identifiers in Hins as Hshown.
  rewrite handle_signature_written.
  - unfold signature_nodes. cbn [sig_outs sig_name sig_ins].
    do 3 f_equal. f_equal; [|f_equal].
    + destruct (inst_outs inst) as [|o outs]; [done|]. cbn [map].
      by rewrite comma_space_ids.
    + destruct (inst_ins inst) as [|op rest]; [done|].
      destruct (shown_inputs (op :: rest)) as [|p0 ps] eqn:Heq.
      * unfold shown_inputs in Heq.
        by destruct (shown_from_cons
          (if variadic op then op_name op +:+ "..." else op_name op) rest)
          as (? & ? & ?); congruence.
      * by rewrite comma_space_ids.
  - assert (Hspace : all_space " ").
    { apply all_space_cons. split; [done|apply all_space_nil]. }
    assert (Hshown_ok : ins_ok
              match shown_inputs (inst_ins inst) with
              | [] => None
              | p0 :: ps => Some (" ", comma_space p0 ps)
              end).
    { destruct (shown_inputs (inst_ins inst)) as [|p0 ps]; [done|].
      split; [done|]. split; [done|]. by apply comma_space_ok. }
    unfold signature_ok. cbn [sig_outs sig_name sig_ins].
    destruct (inst_outs inst) as [|o outs]; cbn [map]; [done|].
    split.
    { apply comma_space_ok.
      change (Forall identifier (map op_name (o :: outs))).
      by apply Forall_map. }
    split; [done|]. split; [done|].
    split; [by apply identifier_token|by apply ins_ok_tokens].
Qed.

(** ** More on type signatures *)

Lemma join_empty_cons (x : string) (l : list string) :
  Py.join "" (x :: l) = x +:+ Py.join "" l.
Proof.
  destruct l as [|y l]; [by rewrite string_app_nil_r|].
  by rewrite join_cons_cons, string_app_nil_l.
Qed.

Lemma typevar_split_join (s : string) :
  forall (n : nat) (pending : string),
    Py.join "" (Re.split_from typevar 0 n pending s) = pending +:+ s.
Proof.
  remember (String.length s) as k eqn:Hk. revert s Hk.
  induction k as [k IH] using lt_wf_ind. intros s Hk n pending.
  destruct s as [|c s'].
  - by rewrite split_from_end, string_app_nil_r.
  - destruct (Re.match_prefix typevar (String c s')) as [rest|] eqn:Hm.
    + rewrite match_typevar in Hm. destruct s' as [|x s']; [done|].
      destruct (Ascii.eqb c "%" && Py.isupper x) eqn:Htv; [|done].
      injection Hm as <-.
      rewrite (split_from_match typevar 0 n pending _ s');
        [|limit|by rewrite match_typevar, Htv|cbn; lia].
      cbn [Re.capture typevar app String.length].
      replace (S (S (String.length s')) - String.length s') with 2 by lia.
      cbn [substring]. rewrite substring_0_0.
      rewrite !join_empty_cons, (IH (String.length s')); [|cbn in Hk; lia|done].
      by rewrite string_app_nil_l.
    + rewrite split_from_skip by (done || limit).
      rewrite (IH (String.length s')); [|cbn in Hk; lia|done].
      by rewrite string_app_snoc.
Qed.

(** X20: Nothing of a type signature is lost by [typevar.split]: the parts, the
    placeholders among them, join to the signature. *)
Theorem typevar_split_join_all (name : string) :
  Py.join "" (Re.split typevar name 0) = name.
Proof. unfold Re.split. by rewrite typevar_split_join. Qed.

(** The loop of [parse_type] over any parts. *)
Lemma parse_type_parts (parts : list string) (signode : desc_signature)
    (re_str : string) :
  foldl parse_type_part (signode, re_str) parts
  = (signode_extend signode (flat_map part_nodes parts),
     re_str +:+ Re.items_text (flat_map part_items parts)).
Proof.
  revert signode re_str.
  induction parts as [|part parts IH]; intros signode re_str.
  - cbn. by rewrite signode_extend_nil, string_app_nil_r.
  - cbn [foldl flat_map]. unfold parse_type_part at 2, part_nodes at 1,
      part_items at 1.
    destruct (String.eqb part ""); [apply IH|].
    destruct (looks_like_typevar part); rewrite IH.
    + by rewrite signode_add_one, signode_extend_extend, items_text_app,
        string_app_assoc.
    + by rewrite signode_add_one, signode_extend_extend, items_text_app,
        string_app_assoc, escape_items_text.
Qed.


(** X21: [parse_type] only appends to the signature node: the nodes it appends
    and the pattern it returns do not depend on the node it is given. *)
Theorem parse_type_appends (name : string) (signode : desc_signature) :
  parse_type name signode
  = (signode_extend signode (children (parse_type name empty_signode).1),
     (parse_type name empty_signode).2).
Proof. unfold parse_type. by rewrite !parse_type_parts. Qed.


(** *** Signatures without [%] *)

Lemma has_char_cons (d c : ascii) (s : string) :
  has_char d (String c s) <-> d = c \/ has_char d s.
Proof. unfold has_char. cbn. apply elem_of_cons. Qed.

Lemma typevar_split_plain (n : nat) (pending s : string) :
  ~ has_char "%" s ->
  Re.split_from typevar 0 n pending s = [pending +:+ s].
Proof.
  revert pending. induction s as [|c s IH]; intros pending Hs.
  - by rewrite split_from_end, string_app_nil_r.
  - rewrite has_char_cons in Hs.
    rewrite split_from_skip, IH, string_app_snoc; [done|tauto|limit|].
    rewrite match_typevar. destruct s as [|x s]; [done|].
    destruct (Ascii.eqb_spec c "%") as [->|]; [tauto|done].
Qed.

Lemma looks_like_typevar_percent (part : string) :
  looks_like_typevar part = true -> has_char "%" part.
Proof.
  unfold looks_like_typevar. intros [_ Hget%bool_decide_eq_true]%andb_true_iff.
  destruct part as [|c part]; [done|]. cbn in Hget. injection Hget as ->.
  apply has_char_cons. by left.
Qed.

(** X23: A signature without [%] is one [desc_name] with the signature, and its
    pattern is the escaped signature; the empty signature appends nothing
    and has the empty pattern. *)
Theorem parse_type_plain (name : string) (signode : desc_signature) :
  ~ has_char "%" name ->
  parse_type name signode
  = (if String.eqb name "" then signode
     else signode_add signode (DescName name),
     Re.escape name).
Proof.
  intros Hname. unfold parse_type, Re.split.
  rewrite typevar_split_plain, string_app_nil_l by done.
  cbn [foldl]. unfold parse_type_part.
  destruct (String.eqb_spec name "") as [->|Hne]; [done|].
  destruct (looks_like_typevar name) eqn:Hlooks; [|done].
  by apply looks_like_typevar_percent in Hlooks.
Qed.

(** X24: The pattern of a signature without [%] matches the signature and no
    other string. *)
Theorem parse_type_pattern_plain (name : string) (signode : desc_signature) :
  ~ has_char "%" name ->
  exists p : Re.pattern,
    Re.compile (parse_type name signode).2 = Some p
    /\ forall t : string, Re.fullmatch p t = true <-> t = name.
Proof.
  intros Hname. unfold parse_type, Re.split.
  rewrite typevar_split_plain, string_app_nil_l by done.
  cbn [foldl]. unfold parse_type_part.
  assert (Hpattern :
    (if String.eqb name "" then (signode, "")
     else if looks_like_typevar name
          then (signode_add signode (Emphasis (substring 1 1 name)), "" +:+ "\w+")
          else (signode_add signode (DescName name), "" +:+ Re.escape name)).2
    = Re.escape name).
  { destruct (String.eqb_spec name "") as [->|Hne]; [done|].
    destruct (looks_like_typevar name) eqn:Hlooks; [|done].
    by apply looks_like_typevar_percent in Hlooks. }
  rewrite Hpattern, escape_items_text.
  eexists. split.
  - apply compile_escaped, Forall_map, Forall_true. intros c. right. by exists c.
  - intros t. unfold Re.fullmatch. cbn [Re.items].
    set (lits := map (fun c => (Re.CLit c, Re.One)) (list_ascii_of_string name)).
    assert (Hiff : is_Some (Re.match_items lits t (fun t => String.eqb t ""))
                   <-> t = name).
    { subst lits. rewrite <- (app_nil_r (map _ _)), match_literals. split.
      - intros (s' & -> & Hs'). cbn in Hs'.
        destruct (String.eqb s' "") eqn:Hempty; [|by destruct Hs'].
        apply String.eqb_eq in Hempty as ->. apply string_app_nil_r.
      - intros ->. exists "". split; [by rewrite string_app_nil_r|done]. }
    destruct (Re.match_items lits t _) as [rest|]; split; try done.
    + intros _. apply Hiff. by eexists.
    + intros Ht. apply Hiff in Ht. by destruct Ht.
Qed.

(** ** The type directive *)

Lemma rstrip_with_idem (drop : ascii -> bool) (s : string) :
  Py.rstrip_with drop (Py.rstrip_with drop s) = Py.rstrip_with drop s.
Proof.
  induction s as [|c s IH]; [done|]. cbn [Py.rstrip_with].
  destruct (Py.rstrip_with drop s) as [|a r] eqn:Hr.
  - destruct (drop c) eqn:Hc; [done|]. cbn. by rewrite Hc.
  - cbn [Py.rstrip_with] in *. by rewrite IH.
Qed.

Lemma rstrip_with_tail (drop : ascii -> bool) (s : string) :
  exists tail,
    s = Py.rstrip_with drop s +:+ tail
    /\ Forall (fun c => drop c = true) (list_ascii_of_string tail).
Proof.
  induction s as [|c s (tail & Heq & Htail)]; [by exists ""|].
  cbn [Py.rstrip_with]. destruct (Py.rstrip_with drop s) as [|a r].
  - destruct (drop c) eqn:Hc.
    + exists (String c tail). rewrite string_app_nil_l in *.
      split; [by rewrite <- Heq|]. cbn. by constructor.
    + exists tail. by rewrite string_app_cons, <- Heq.
  - exists tail. by rewrite string_app_cons, <- Heq.
Qed.

Lemma lstrip_head (s : string) :
  exists w, all_space w /\ s = w +:+ Py.lstrip s.
Proof.
  induction s as [|c s (w & Hw & Heq)]; [exists ""; split; [constructor|done]|].
  cbn [Py.lstrip]. destruct (Py.isspace c) eqn:Hc.
  - exists (String c w). split; [by apply all_space_cons|].
    by rewrite string_app_cons, <- Heq.
  - exists "". split; [constructor|done].
Qed.

Lemma strip_lstrip (s : string) : Py.lstrip (Py.strip s) = Py.strip s.
Proof.
  unfold Py.strip, Py.rstrip.
  destruct (lstrip_first s) as [->|(c & t & -> & Hc)]; [done|].
  cbn [Py.rstrip_with]. destruct (Py.rstrip_with Py.isspace t).
  - rewrite Hc. by apply lstrip_nonspace.
  - by apply lstrip_nonspace.
Qed.

(** X27: The name [ClifType.handle_signature] returns is the signature without
    the whitespace at its ends, and the signature node has only gained
    children. *)
Theorem type_signature_name (sig : string) (signode : desc_signature) :
  let name := (ClifType_handle_signature sig signode).1 in
  (exists w1 w2, all_space w1 /\ all_space w2 /\ sig = w1 +:+ name +:+ w2)
  /\ Py.lstrip name = name
  /\ Py.rstrip name = name
  /\ exists nodes,
       (ClifType_handle_signature sig signode).2 = signode_extend signode nodes.
Proof.
  cbn. repeat split.
  - destruct (lstrip_head sig) as (w1 & Hw1 & Heq).
    destruct (rstrip_with_tail Py.isspace (Py.lstrip sig)) as (w2 & Heq2 & Hw2).
    exists w1, w2. repeat split; [done..|].
    unfold Py.strip, Py.rstrip. by rewrite <- Heq2.
  - apply strip_lstrip.
  - apply rstrip_with_idem.
  - unfold parse_type. rewrite parse_type_parts. by eexists.
Qed.

(** X28: A blank type signature is no error: the type directive returns the
    empty name and appends nothing. *)
Theorem type_signature_blank (sig : string) (signode : desc_signature) :
  all_space sig -> ClifType_handle_signature sig signode = ("", signode).
Proof.
  intros Hsig. unfold ClifType_handle_signature, Py.strip.
  rewrite <- (string_app_nil_r sig), lstrip_app_space by done.
  reflexivity.
Qed.

(** ** Parameters *)

Lemma has_char_snoc (d c : ascii) (s : string) :
  has_char d (s +:+ String c "") <-> has_char d s \/ d = c.
Proof.
  induction s as [|a s IH].
  - rewrite string_app_nil_l, has_char_cons. unfold has_char. cbn.
    rewrite elem_of_nil. tauto.
  - rewrite string_app_cons, !has_char_cons, IH. tauto.
Qed.

Lemma split_comma_no_comma (fuel n : nat) (pending s : string) :
  String.length s < fuel ->
  ~ has_char "," pending ->
  Forall (fun part => ~ has_char "," part)
         (Re.split_loop fuel sep_comma 0 n pending s).
Proof.
  revert n pending s. induction fuel as [|fuel IH]; intros n pending s Hfuel Hp;
    [lia|].
  rewrite split_loop_S. cbn [Nat.eqb negb andb]. cbn zeta.
  rewrite (match_separator ","%char) by done. cbn [Re.capture sep_comma app].
  assert (Hnil : ~ has_char "," "").
  { unfold has_char. cbn. apply not_elem_of_nil. }
  destruct s as [|a s]; [repeat constructor; done|].
  cbn [String.length] in Hfuel.
  destruct (Ascii.eqb_spec a ",") as [->|Ha].
  - rewrite lstrip_nonspace by done. cbn [Ascii.eqb Bool.eqb].
    pose proof (lstrip_length s) as Hlen.
    destruct (Nat.ltb_spec (String.length (Py.lstrip s))
                (String.length (String "," s))) as [_|Hge];
      [|cbn in Hge; lia].
    constructor; [done|apply IH; [lia|done]].
  - assert (Hskip : Forall (fun part => ~ has_char "," part)
              (Re.split_loop fuel sep_comma 0 n (pending +:+ String a "") s)).
    { apply IH; [lia|]. rewrite has_char_snoc. intros [?|?]; [done|].
      by apply Ha. }
    destruct (Py.lstrip (String a s)) as [|c t]; [done|].
    destruct (Ascii.eqb c ","); [|done].
    destruct (Nat.ltb_spec (String.length (Py.lstrip t))
                (String.length (String a s))) as [Hlt|_]; [|done].
    constructor; [done|apply IH; [cbn in Hlt; lia|done]].
Qed.

(** X19: [parse_params] on any text: the parts between the commas, of which
    there is at least one and none holds a comma, each in emphasis, with
    [', '] between them. *)
Theorem parse_params_nodes (s : string) (signode : desc_signature) :
  parse_params s signode
  = signode_extend signode (emphasized (Re.split sep_comma s 0))
  /\ Re.split sep_comma s 0 <> []
  /\ Forall (fun part => ~ has_char "," part) (Re.split sep_comma s 0).
Proof.
  split; [apply parse_params_split|]. split.
  - unfold Re.split, Re.split_from.
    by destruct (split_loop_first sep_comma 0 (S (String.length s)) 0 "" s)
      as (a & parts & ->).
  - apply split_comma_no_comma; [lia|]. unfold has_char. cbn.
    apply not_elem_of_nil.
Qed.

(** ** The remaining documenters *)

(** X29: The module name [InstDocumenter.resolve_name] returns never ends in a
    dot, a given path is that name followed by dots only, and the object
    path is the base name alone. *)
Theorem resolve_name_module (path : option string) (base : string) :
  let modname := (resolve_name path base).1 in
  (resolve_name path base).2 = [base]
  /\ Py.rstrip_with (fun c => Ascii.eqb c ".") modname = modname
  /\ match path with
     | Some (String c p) =>
         exists dots,
           String c p = modname +:+ dots
           /\ Forall (fun a => a = "."%char) (list_ascii_of_string dots)
     | _ => modname = "base.instructions"
     end.
Proof.
  destruct path as [[|c p]|]; cbn [resolve_name String.eqb]; try by vm_compute.
  set (s := String c p). assert (Heqb : String.eqb s "" = false) by done.
  cbn -[Py.rstrip_with]. repeat split.
  - apply rstrip_with_idem.
  - destruct (rstrip_with_tail (fun c => Ascii.eqb c ".") s) as (dots & Heq & Hdots).
    exists dots. split; [done|].
    eapply Forall_impl; [exact Hdots|]. intros a Ha. by apply Ascii.eqb_eq.
Qed.

(** X30: [TypeDocumenter.add_content] adds one line to the host's content, and
    the line never gives zero bytes. *)
Theorem type_add_content_line (super_add_content : list string -> list string)
    (membytes : option nat) (result : list string) :
  exists line,
    type_add_content super_add_content membytes result
    = super_add_content result ++ [line]
    /\ line <> ":bytes: 0"
    /\ (membytes = None \/ membytes = Some 0
        -> line = ":bytes: Can't be stored in memory").
Proof.
  unfold type_add_content, add_line.
  destruct membytes as [[|n]|]; eexists; (split; [done|]); split; try done.
  - intros Heq. apply (inj (String.app ":bytes: ")) in Heq.
    assert (Hzero : pretty 0%nat = "0") by reflexivity. rewrite <- Hzero in Heq.
    by apply (inj pretty) in Heq.
  - by intros [?|?].
Qed.
(** ** Code points beyond ASCII *)

(** The characters [str.isspace], [str.split(None)], [str.strip()] and [\s]
    take. *)
Lemma isspace_codes :
  codes_of Py.isspace = [9; 10; 11; 12; 13; 28; 29; 30; 31; 32; 133; 160].
Proof. by vm_compute. Qed.

(** The characters [\w] takes: the digits, the letters and [_] of ASCII,
    and the letters and numbers of U+00AA to U+00FF. *)
Lemma isword_codes :
  codes_of Py.isword
  = seq 48 10 ++ seq 65 26 ++ [95] ++ seq 97 26
    ++ [170; 178; 179; 181; 185; 186; 188; 189; 190]
    ++ seq 192 23 ++ seq 216 31 ++ seq 248 8.
Proof. by vm_compute. Qed.

(** The characters [re.escape] puts a backslash before. *)
Lemma isescaped_codes :
  codes_of Re.isescaped
  = [9; 10; 11; 12; 13; 32; 35; 36; 38; 40; 41; 42; 43; 45; 46; 63;
     91; 92; 93; 94; 123; 124; 125; 126].
Proof. by vm_compute. Qed.

(** [re.escape] leaves [_] and [%] as they are. *)
Lemma escape_examples :
  Re.escape "a_b" = "a_b"
  /\ Re.escape "%a" = "%a"
  /\ Re.escape "f32.x" = "f32\.x"
  /\ Re.escape "a-b c" = "a\-b\ c".
Proof. by vm_compute. Qed.

(** U+001F ends the name of an instruction. *)
Lemma handle_signature_unit_separator :
  handle_signature ("foo" +:+ String unit_separator "bar") empty_signode
  = Py.Returns
      ("foo",
       signode_extend empty_signode
         [DescName "foo"; Text " "; Emphasis "bar"]).
Proof. by vm_compute. Qed.

(** A signature of U+001F alone has no name. *)
Lemma handle_signature_only_separator :
  handle_signature (String unit_separator "") empty_signode = Py.IndexError.
Proof. by vm_compute. Qed.

(** U+00A0 and U+0085 around the [=] go with it. *)
Lemma handle_signature_no_break_space :
  handle_signature ("v0" +:+ String "160" (String "=" (String "133" "inst")))
    empty_signode
  = Py.Returns
      ("inst",
       signode_extend empty_signode
         [Emphasis "v0"; Text " = "; DescName "inst"]).
Proof. by vm_compute. Qed.

(** U+001F before a comma goes with the comma. *)
Lemma parse_params_unit_separator :
  parse_params ("a" +:+ String unit_separator ",b") empty_signode
  = signode_extend empty_signode [Emphasis "a"; Text ", "; Emphasis "b"].
Proof. by vm_compute. Qed.

(** U+001F at the start of a type signature is stripped. *)
Lemma type_signature_unit_separator :
  ClifType_handle_signature (String unit_separator "i32") empty_signode
  = ("i32", signode_extend empty_signode [DescName "i32"]).
Proof. by vm_compute. Qed.

(** [%] and one more character, whatever its code point, is a part of
    length two. *)
Lemma parse_type_percent_code_point :
  looks_like_typevar (String "%" (String n_tilde "")) = true
  /\ parse_type (String "%" (String n_tilde "")) empty_signode
     = (signode_extend empty_signode [Emphasis (String n_tilde "")], "\w+").
Proof. by vm_compute. Qed.

(** [\w] takes the letter U+00F1 and not the sign U+00D7. *)
Lemma parse_type_pattern_letter :
  exists p : Re.pattern,
    Re.compile (parse_type "i%B" empty_signode).2 = Some p
    /\ Re.fullmatch p (String "i" (String n_tilde "")) = true
    /\ Re.fullmatch p (String "i" (String times_sign "")) = false.
Proof. eexists. by vm_compute. Qed.


(** ** The further theorems at concrete inputs *)

Ltac no_such_char :=
  unfold has_char; cbn; rewrite ?elem_of_cons, elem_of_nil;
  intuition discriminate.

Lemma add_target_and_index_fresh_witness :
  let r := add_target_and_index (fun docname => docname +:+ ".rst")
             (fun signode ids => list_to_set (sig_ids signode) ∪ ids)
             (H := ClifInst_index) example_directive "isub" "isub x, y"
             empty_signode described_before in
  warnings r.2 = []
  /\ objects r.2 = <["isub" := ("ir", "inst")]> {[ "iadd" := ("old", "inst") ]}
  /\ sig_ids r.1 = ["inst-isub"].
Proof.
  pose proof (add_target_and_index_fresh
                (fun docname => docname +:+ ".rst")
                (fun signode ids => list_to_set (sig_ids signode) ∪ ids)
                (H := ClifInst_index) example_directive "isub" "isub x, y"
                empty_signode described_before) as Hfresh.
  cbn zeta in *.
  destruct Hfresh as (Hwarn & Hobj & Hids & _).
  - cbn. apply not_elem_of_empty.
  - cbn. by apply lookup_singleton_ne.
  - split; [exact Hwarn|]. split; [exact Hobj|exact Hids].
Defined.

Lemma add_target_and_index_other_witness :
  objects (add_target_and_index (fun docname => docname +:+ ".rst")
             (fun signode ids => list_to_set (sig_ids signode) ∪ ids)
             (H := ClifInst_index) example_directive "isub" "isub x, y"
             empty_signode described_before).2 !! "iadd"
  = Some ("old", "inst").
Proof.
  rewrite (add_target_and_index_other
             (fun docname => docname +:+ ".rst")
             (fun signode ids => list_to_set (sig_ids signode) ∪ ids)
             (H := ClifInst_index) example_directive "isub" "isub x, y"
             empty_signode described_before "iadd") by discriminate.
  cbn. apply lookup_singleton_eq.
Defined.

Lemma add_target_and_index_entry_witness :
  index_entries (add_target_and_index (fun docname => docname +:+ ".rst")
                   (fun signode ids => list_to_set (sig_ids signode) ∪ ids)
                   (H := ClifInst_index) example_directive "iadd" "iadd x, y"
                   empty_signode target_known).2
  = [("single", "iadd", "inst-iadd", "", None)].
Proof.
  apply (add_target_and_index_entry
           (fun docname => docname +:+ ".rst")
           (fun signode ids => list_to_set (sig_ids signode) ∪ ids)
           (H := ClifInst_index) example_directive "iadd" "iadd x, y"
           empty_signode target_known).
  cbn. discriminate.
Defined.

Lemma describe_then_resolve_witness :
  let r := add_target_and_index (fun docname => docname +:+ ".rst")
             (fun signode ids => list_to_set (sig_ids signode) ∪ ids)
             (H := ClifInst_index) example_directive "iadd" "iadd x, y"
             empty_signode described_before in
  exists ref : refnode,
    resolve_xref (objects r.2) "index" "iadd" [Text "iadd"] = Some ref
    /\ ref_todocname ref = "ir"
    /\ sig_ids r.1 = [ref_targetid ref].
Proof.
  apply (describe_then_resolve
           (fun docname => docname +:+ ".rst")
           (fun signode ids => list_to_set (sig_ids signode) ∪ ids)
           (H := ClifInst_index) example_directive "iadd" "iadd x, y"
           empty_signode described_before "index" [Text "iadd"]).
  cbn. apply not_elem_of_empty.
Defined.

Lemma describe_then_clear_witness :
  resolve_xref
    (clear_doc "ir"
       (objects (add_target_and_index (fun docname => docname +:+ ".rst")
                   (fun signode ids => list_to_set (sig_ids signode) ∪ ids)
                   (H := ClifInst_index) example_directive "iadd" "iadd x, y"
                   empty_signode described_before).2))
    "index" "iadd" [Text "iadd"]
  = None.
Proof.
  apply (describe_then_clear
           (fun docname => docname +:+ ".rst")
           (fun signode ids => list_to_set (sig_ids signode) ∪ ids)
           (H := ClifInst_index) example_directive "iadd" "iadd x, y"
           empty_signode described_before "index" [Text "iadd"]).
  cbn. apply not_elem_of_empty.
Defined.

Lemma clear_doc_no_reference_witness :
  ref_todocname (make_refnode "index" "old" "inst-iadd" [] "iadd") <> "ir"
  /\ resolve_xref {[ "iadd" := ("old", "inst") ]} "index" "iadd" []
     = Some (make_refnode "index" "old" "inst-iadd" [] "iadd").
Proof.
  apply (clear_doc_no_reference "ir" {[ "iadd" := ("old", "inst") ]}
           "index" "iadd" [] (make_refnode "index" "old" "inst-iadd" [] "iadd")).
  unfold resolve_xref. rewrite clear_doc_lookup, lookup_singleton_eq.
  reflexivity.
Defined.

Lemma merge_then_resolve_witness :
  resolve_xref
    (merge_domaindata {[ "ir" ]} {[ "iadd" := ("ir", "inst") ]} ∅)
    "index" "iadd" []
  = Some (make_refnode "index" "ir" "inst-iadd" [] "iadd").
Proof.
  apply (merge_then_resolve {[ "ir" ]} {[ "iadd" := ("ir", "inst") ]} ∅
           "index" "iadd" [] "ir" "inst").
  - apply lookup_singleton_eq.
  - by apply elem_of_singleton.
Defined.

Lemma handle_signature_name_witness :
  "foo" <> ""
  /\ Forall (fun a => Py.isspace a = false) (list_ascii_of_string "foo")
  /\ exists nodes,
       signode_extend empty_signode
         [DescName "foo"; Text " "; Emphasis "bar"]
       = signode_extend empty_signode nodes.
Proof.
  apply (handle_signature_name
           ("foo" +:+ String unit_separator "bar") empty_signode
           (signode_extend empty_signode
              [DescName "foo"; Text " "; Emphasis "bar"])
           "foo").
  vm_compute. reflexivity.
Defined.

Lemma handle_signature_blank_witness :
  handle_signature "  " empty_signode = Py.IndexError.
Proof.
  apply (handle_signature_blank "  " empty_signode).
  unfold all_space. cbn. repeat constructor.
Defined.

Lemma handle_signature_outs_only_witness :
  handle_signature "v0 =" empty_signode = Py.IndexError.
Proof.
  apply (handle_signature_outs_only
           {| first_id := "v0"; more_ids := [] |} " " "" empty_signode).
  - unfold id_list_ok, identifier, plain. cbn.
    repeat (split || constructor); done.
  - unfold all_space. cbn. repeat constructor.
  - apply all_space_nil.
Defined.

Lemma format_then_handle_signature_witness :
  handle_signature "rvals = call FN(args...)" empty_signode
  = Py.Returns
      ("call",
       signode_extend empty_signode
         [Emphasis "rvals"; Text " = "; DescName "call"; Text " ";
          Emphasis "FN(args...)"]).
Proof.
  apply (format_then_handle_signature call_inst empty_signode).
  - unfold identifier, plain. cbn. repeat (split || constructor); done.
  - unfold identifier, plain. cbn. repeat (split || constructor); done.
  - unfold identifier, plain. cbn. repeat (split || constructor); done.
Defined.

Lemma parse_type_plain_witness :
  parse_type "a_b.c" empty_signode
  = (signode_add empty_signode (DescName "a_b.c"), "a_b\.c").
Proof.
  apply (parse_type_plain "a_b.c" empty_signode). no_such_char.
Defined.

Lemma parse_type_pattern_plain_witness :
  exists p : Re.pattern,
    Re.compile (parse_type "b1" empty_signode).2 = Some p
    /\ forall t : string, Re.fullmatch p t = true <-> t = "b1".
Proof.
  apply (parse_type_pattern_plain "b1" empty_signode). no_such_char.
Defined.

Lemma parse_type_refines_witness :
  parse_type "i%Bx%C" empty_signode = parse_type_spec "i%Bx%C" empty_signode.
Proof.
  apply (parse_type_refines "i%Bx%C" empty_signode).
  cbn. repeat constructor.
Defined.

Lemma parse_type_pattern_matches_witness :
  exists p : Re.pattern,
    Re.compile (parse_type "i%Bx%C" empty_signode).2 = Some p
    /\ forall t : string,
         Re.fullmatch p t = true <-> type_instance "i%Bx%C" t.
Proof.
  apply (parse_type_pattern_matches "i%Bx%C" empty_signode).
  cbn. repeat constructor.
Defined.

Lemma type_signature_blank_witness :
  ClifType_handle_signature "  " empty_signode = ("", empty_signode).
Proof.
  apply (type_signature_blank "  " empty_signode).
  unfold all_space. cbn. repeat constructor.
Defined.
